(** * global_functions.py: column filter, number formatter, descriptive summary

    A shallow embedding of [filter_cols], [format_number] and
    [descriptive_analysis] together with the fragment of pandas they call.

    Conventions of the embedding:
    - a Python exception is a value [Raise e] of the [result] type;
    - a [float] is represented by the rational number it denotes ([Q]),
      [nan] is the separate value [VNaN]; [filter_cols] takes the product of
      the threshold and the row count exactly, [filter_cols_f64] rounds it as
      the floating-point multiplication does;
    - a [str] is a [string]; [str.lower] acts on the letters [A]-[Z], which is
      all that a comparison with the ASCII prefix ["unnamed"] can observe. *)

From Stdlib Require Import List String Ascii ZArith QArith Qround Qabs Qfield Lqa Bool Arith Lia
  Permutation.
Import ListNotations.

Local Close Scope Q_scope.
Local Open Scope string_scope.
Local Open Scope list_scope.

(** ** Exceptions and the error monad *)

Inductive exn : Set :=
| AttributeError
| ValueError
| KeyError
| IndexError
| UnboundLocalError.

Inductive result (A : Type) : Type :=
| Ok (a : A)
| Raise (e : exn).

Arguments Ok {A} a.
Arguments Raise {A} e.

Definition bind {A B : Type} (m : result A) (k : A -> result B) : result B :=
  match m with
  | Ok a => k a
  | Raise e => Raise e
  end.

Notation "x <- m ;; k" := (bind m (fun x => k))
  (at level 61, m at next level, right associativity).

Definition raises {A : Type} (m : result A) : Prop := exists e, m = Raise e.

(** ** Data model: labels, cell values, series and frames *)

(** A column label: pandas accepts any hashable, the two kinds that occur in
    practice are strings and integers. *)
Inductive label : Set :=
| LStr (s : string)
| LInt (z : Z).

(** A cell. [VNone] and [VNaN] are the missing markers. *)
Inductive value : Set :=
| VNone
| VNaN
| VFloat (q : Q)
| VInt (z : Z)
| VBool (b : bool)
| VStr (s : string).

Inductive dtype : Set :=
| Int64
| Float64
| BoolT
| Object.

Record Series : Set := mkSeries {
  s_dtype : dtype;
  s_values : list value
}.

(** [len(df)] is the length of the row index, which a frame keeps even when
    it has no column; the columns are kept in order, with their labels. *)
Record DataFrame : Set := mkDataFrame {
  nrows : nat;
  cols : list (label * Series)
}.

(** [df.columns] *)
Definition df_columns (df : DataFrame) : list label := map fst (cols df).

(** The shape invariant of a frame: every column has one cell per row. *)
Definition wf_shape (df : DataFrame) : Prop :=
  Forall (fun lc => List.length (s_values (snd lc)) = nrows df) (cols df).

Definition label_eqb (a b : label) : bool :=
  match a, b with
  | LStr s, LStr t => String.eqb s t
  | LInt x, LInt y => Z.eqb x y
  | _, _ => false
  end.

Definition is_str (l : label) : bool :=
  match l with LStr _ => true | LInt _ => false end.

(** ** Strings *)

Definition lower_ascii (c : ascii) : ascii :=
  let n := nat_of_ascii c in
  if (65 <=? n)%nat && (n <=? 90)%nat then ascii_of_nat (n + 32) else c.

Fixpoint lower (s : string) : string :=
  match s with
  | EmptyString => EmptyString
  | String c s' => String (lower_ascii c) (lower s')
  end.

(** [s.startswith(p)] *)
Definition startswith (s p : string) : bool := String.prefix p s.

(** [sep.join(l)] *)
Definition join (sep : string) (l : list string) : string := String.concat sep l.

(** ** pandas: missing values, column access, drop *)

(** [pd.isnull(v)] on a scalar *)
Definition isnull (v : value) : bool :=
  match v with
  | VNone | VNaN => true
  | _ => false
  end.

(** [s.isnull().sum()] *)
Definition isnull_sum (s : Series) : nat :=
  List.length (filter isnull (s_values s)).

(** What [df[col]] evaluates to: a Series when the label names one column, a
    DataFrame of all the columns carrying it when the label is repeated. *)
Inductive selection : Set :=
| SelSeries (s : Series)
| SelFrame (cs : list (label * Series)).

Definition getitem (df : DataFrame) (col : label) : result selection :=
  match filter (fun lc => label_eqb (fst lc) col) (cols df) with
  | [] => Raise KeyError
  | [(_, s)] => Ok (SelSeries s)
  | cs => Ok (SelFrame cs)
  end.

(** The value of [df[col].isnull().sum() > threshold_count]: a boolean for a
    Series, a boolean Series (one entry per selected column) for a frame. *)
Inductive comparison : Set :=
| CmpBool (b : bool)
| CmpSeries (bs : list bool).

Definition gt_count (n : nat) (threshold_count : Q) : bool :=
  negb (Qle_bool (inject_Z (Z.of_nat n)) threshold_count).

Definition isnull_sum_gt (sel : selection) (threshold_count : Q) : comparison :=
  match sel with
  | SelSeries s => CmpBool (gt_count (isnull_sum s) threshold_count)
  | SelFrame cs =>
      CmpSeries (map (fun lc => gt_count (isnull_sum (snd lc)) threshold_count) cs)
  end.

(** Truth value of the condition of an [if]: pandas gives a Series none
    ("The truth value of a Series is ambiguous"). *)
Definition truth (c : comparison) : result bool :=
  match c with
  | CmpBool b => Ok b
  | CmpSeries _ => Raise ValueError
  end.

(** [col.lower()]: only a [str] has the method. *)
Definition label_lower (col : label) : result string :=
  match col with
  | LStr s => Ok (lower s)
  | LInt _ => Raise AttributeError
  end.

(** A Python dict, in insertion order; assigning to a key that is present
    replaces its value in place. *)
Definition dict : Set := list (label * string).

Fixpoint dict_set (d : dict) (k : label) (v : string) : dict :=
  match d with
  | [] => [(k, v)]
  | (k', v') :: d' =>
      if label_eqb k' k then (k', v) :: d' else (k', v') :: dict_set d' k v
  end.

Definition dict_keys (d : dict) : list label := map fst d.
Definition dict_values (d : dict) : list string := map snd d.

Definition label_mem (l : label) (ls : list label) : bool :=
  existsb (label_eqb l) ls.

(** [df.drop(columns=labels)]: every column carrying one of the labels goes,
    the row index stays; a label that names no column is a [KeyError]. *)
Definition drop_columns (df : DataFrame) (labels : list label) : result DataFrame :=
  if forallb (fun l => label_mem l (df_columns df)) labels then
    Ok (mkDataFrame (nrows df)
          (filter (fun lc => negb (label_mem (fst lc) labels)) (cols df)))
  else Raise KeyError.

(** ** filter_cols *)

(** The report: [pd.DataFrame({'Column': ..., 'Reason': ...})]. *)
Record Report : Set := mkReport {
  report_headers : list string;
  report_Column : list label;
  report_Reason : list string
}.

(** The rows of the report, read across its two columns. *)
Definition report_rows (r : Report) : list (label * string) :=
  combine (report_Column r) (report_Reason r).

Definition threshold_count (missing_threshold : Q) (df : DataFrame) : Q :=
  (missing_threshold * inject_Z (Z.of_nat (nrows df)))%Q.

(** One iteration of [for col in df.columns]. *)
Definition filter_step (df : DataFrame) (tc : Q) (col : label)
    (cols_to_filter : dict) : result dict :=
  sel <- getitem df col ;;
  excessive <- truth (isnull_sum_gt sel tc) ;;
  let reasons := if excessive then ["Excessive Missing Values"] else [] in
  low <- label_lower col ;;
  let reasons :=
    if startswith low "unnamed" then reasons ++ ["Unnamed Column"] else reasons in
  match reasons with
  | [] => Ok cols_to_filter
  | _ :: _ => Ok (dict_set cols_to_filter col (join ", " reasons))
  end.

Fixpoint filter_loop (df : DataFrame) (tc : Q) (labels : list label)
    (cols_to_filter : dict) : result dict :=
  match labels with
  | [] => Ok cols_to_filter
  | col :: rest =>
      d <- filter_step df tc col cols_to_filter ;;
      filter_loop df tc rest d
  end.

(** [report_with_title], the report under a title row, is built by the
    source and dropped: the function returns [report_df]. *)
Definition filter_cols (df : DataFrame) (missing_threshold : Q)
    : result (DataFrame * Report) :=
  let tc := threshold_count missing_threshold df in
  cols_to_filter <- filter_loop df tc (df_columns df) [] ;;
  df_filtered <- drop_columns df (dict_keys cols_to_filter) ;;
  let report_df :=
    mkReport ["Column"; "Reason"] (dict_keys cols_to_filter)
             (dict_values cols_to_filter) in
  Ok (df_filtered, report_df).

(** The default [missing_threshold=0.9]. *)
Definition default_threshold : Q := (9 # 10)%Q.


(** ** format_number *)

(** Nearest integer, ties to the even one. *)
Definition round_half_even (q : Q) : Z :=
  let f := Qfloor q in
  match Qcompare (q - inject_Z f) (1 # 2)%Q with
  | Lt => f
  | Gt => (f + 1)%Z
  | Eq => if Z.even f then f else (f + 1)%Z
  end.

(** [round(x, 2)] on a float: the nearest multiple of 1/100. *)
Definition round2 (q : Q) : Q := Qmake (round_half_even (q * 100)%Q) 100.

Definition format_number (x : value) : value :=
  if isnull x then x
  else
    match x with
    | VFloat q => VFloat (round2 q)   (* isinstance(x, float) *)
    | _ => x
    end.

(** ** pandas: the pieces used by descriptive_analysis *)

(** Membership of a dtype in [np.number]; [bool] and [object] are not. *)
Definition is_number (d : dtype) : bool :=
  match d with
  | Int64 | Float64 => true
  | BoolT | Object => false
  end.

(** [df.select_dtypes(include=np.number)] is [select_dtypes df is_number],
    [df.select_dtypes(exclude=np.number)] keeps the other columns. *)
Definition select_dtypes (df : DataFrame) (keep : dtype -> bool) : DataFrame :=
  mkDataFrame (nrows df) (filter (fun lc => keep (s_dtype (snd lc))) (cols df)).

(** Truth value of a label. *)
Definition label_truthy (l : label) : bool :=
  match l with
  | LStr s => negb (String.eqb s "")
  | LInt z => negb (Z.eqb z 0)
  end.

(** [index.any()]: whether some label is truthy. *)
Definition index_any (labels : list label) : bool := existsb label_truthy labels.

(** [df[labels]] with a list of labels: for every label in turn, the columns
    that carry it. The labels used below are taken from [df] itself, so none
    is missing. *)
Definition getitem_list (df : DataFrame) (labels : list label) : DataFrame :=
  mkDataFrame (nrows df)
    (flat_map (fun k => filter (fun lc => label_eqb (fst lc) k) (cols df)) labels).

(** [s.dropna()] and [s.empty] *)
Definition dropna (s : Series) : Series :=
  mkSeries (s_dtype s) (filter (fun v => negb (isnull v)) (s_values s)).

Definition series_empty (s : Series) : bool :=
  match s_values s with [] => true | _ :: _ => false end.

(** [s.count()] *)
Definition series_count (s : Series) : nat := List.length (s_values (dropna s)).

(** Equality of two cells as Python compares and hashes them: numbers by
    value across [int], [float] and [bool], strings by content. *)
Definition as_number (v : value) : option Q :=
  match v with
  | VFloat q => Some q
  | VInt z => Some (inject_Z z)
  | VBool b => Some (if b then 1%Q else 0%Q)
  | _ => None
  end.

Definition value_eqb (v w : value) : bool :=
  match as_number v, as_number w with
  | Some a, Some b => Qeq_bool a b
  | None, None =>
      match v, w with
      | VStr s, VStr t => String.eqb s t
      | _, _ => false
      end
  | _, _ => false
  end.

Fixpoint tally_add (v : value) (t : list (value * nat)) : list (value * nat) :=
  match t with
  | [] => [(v, 1)]
  | (w, n) :: t' => if value_eqb w v then (w, S n) :: t' else (w, n) :: tally_add v t'
  end.

Definition tally (vs : list value) : list (value * nat) :=
  fold_left (fun t v => tally_add v t) vs [].

Fixpoint insert_desc (x : value * nat) (l : list (value * nat)) : list (value * nat) :=
  match l with
  | [] => [x]
  | y :: l' => if (snd y <=? snd x)%nat then x :: y :: l' else y :: insert_desc x l'
  end.

Definition sort_desc (l : list (value * nat)) : list (value * nat) :=
  fold_right insert_desc [] l.

(** [s.value_counts()]: the occurrence count of every distinct non-missing
    value, largest first; of two values with the same count the one seen
    first in the column comes first. *)
Definition value_counts (s : Series) : list (value * nat) :=
  sort_desc (tally (s_values (dropna s))).

(** [counts.iloc[0]] *)
Definition iloc0 (counts : list (value * nat)) : result nat :=
  match counts with
  | [] => Raise IndexError
  | (_, n) :: _ => Ok n
  end.

(** [df.isnull().sum()]: one count per column. *)
Definition frame_isnull_sum (df : DataFrame) : list value :=
  map (fun lc => VInt (Z.of_nat (isnull_sum (snd lc)))) (cols df).

(** [df.apply(f)]: [f] on every column in turn; the first exception ends it. *)
Fixpoint apply_columns (f : Series -> result value) (cs : list (label * Series))
    : result (list value) :=
  match cs with
  | [] => Ok []
  | (_, s) :: rest =>
      v <- f s ;;
      vs <- apply_columns f rest ;;
      Ok (v :: vs)
  end.

Definition frame_apply (f : Series -> result value) (df : DataFrame)
    : result (list value) :=
  apply_columns f (cols df).

(** A table of statistics: the row index holds the statistic names, every
    column holds one cell per row. [K] is the type of the column keys. Cells
    hold the Python value assigned to them. *)
Record Table (K : Type) : Type := mkTable {
  t_index : list string;
  t_columns : list (K * list value)
}.

Arguments mkTable {K} t_index t_columns.
Arguments t_index {K} t.
Arguments t_columns {K} t.

(** [t.applymap(f)] *)
Definition applymap {K : Type} (f : value -> value) (t : Table K) : Table K :=
  mkTable (t_index t) (map (fun kc => (fst kc, map f (snd kc))) (t_columns t)).

Fixpoint index_of (name : string) (index : list string) : option nat :=
  match index with
  | [] => None
  | n :: rest =>
      if String.eqb n name then Some 0
      else match index_of name rest with
           | Some i => Some (S i)
           | None => None
           end
  end.

Fixpoint replace_nth (i : nat) (v : value) (l : list value) : list value :=
  match l, i with
  | [], _ => []
  | _ :: l', O => v :: l'
  | x :: l', S j => x :: replace_nth j v l'
  end.

Fixpoint zip_columns {K : Type} (g : list value -> value -> list value)
    (cs : list (K * list value)) (vs : list value) : list (K * list value) :=
  match cs with
  | [] => []
  | (k, cells) :: cs' =>
      (k, g cells (hd VNaN vs)) :: zip_columns g cs' (tl vs)
  end.

(** [t.loc[name] = row], where [row] has one entry per column of [t] and the
    same labels: an existing row is overwritten, a new one is appended. *)
Definition set_row {K : Type} (t : Table K) (name : string) (row : list value)
    : Table K :=
  match index_of name (t_index t) with
  | Some i => mkTable (t_index t) (zip_columns (fun cells v => replace_nth i v cells)
                                     (t_columns t) row)
  | None => mkTable (t_index t ++ [name])
              (zip_columns (fun cells v => cells ++ [v]) (t_columns t) row)
  end.

(** The cast of a cell to [float64]. *)
Definition to_float64 (v : value) : value :=
  match v with
  | VInt z => VFloat (inject_Z z)
  | VBool b => VFloat (if b then 1%Q else 0%Q)
  | VNone => VNaN
  | _ => v
  end.

(** [t.loc[name] = row] on a table whose columns are [float64], as the
    table of [describe()] on numeric columns is: the values assigned are cast
    to the dtype of the columns. *)
Definition set_row_f64 {K : Type} (t : Table K) (name : string) (row : list value)
    : Table K :=
  set_row t name (map to_float64 row).

(** [t.columns = pd.MultiIndex.from_product([[header], t.columns])] *)
Definition with_header (header : string) (t : Table label) : Table (string * label) :=
  mkTable (t_index t) (map (fun kc => ((header, fst kc), snd kc)) (t_columns t)).

Definition cell_at (index : list string) (cells : list value) (name : string) : value :=
  match index_of name index with
  | Some i => nth i cells VNaN
  | None => VNaN
  end.

Definition reindex {K : Type} (new_index : list string) (t : Table K)
    : list (K * list value) :=
  map (fun kc => (fst kc, map (cell_at (t_index t) (snd kc)) new_index)) (t_columns t).

Definition index_union (a b : list string) : list string :=
  a ++ filter (fun n => match index_of n a with Some _ => false | None => true end) b.

(** [pd.concat([a, b], axis=1)]: the columns of [a] then those of [b], over
    the union of the two row indexes; a cell that a table lacks is [nan]. *)
Definition concat_axis1 {K : Type} (a b : Table K) : Table K :=
  let index := index_union (t_index a) (t_index b) in
  mkTable index (reindex index a ++ reindex index b).

(** The transposed table: one row per column of the original. *)
Record Summary : Type := mkSummary {
  summary_columns : list string;
  summary_rows : list ((string * label) * list value)
}.

(** [t.T] *)
Definition transpose (t : Table (string * label)) : Summary :=
  mkSummary (t_index t) (t_columns t).

(** Reading a local variable that no assignment has bound. *)
Definition local {A : Type} (v : option A) : result A :=
  match v with
  | Some a => Ok a
  | None => Raise UnboundLocalError
  end.

(** ** describe *)

Definition Qmin_list (l : list Q) : value :=
  match l with
  | [] => VNaN
  | x :: l' => VFloat (fold_left (fun m y => if Qle_bool y m then y else m) l' x)
  end.

Definition Qmax_list (l : list Q) : value :=
  match l with
  | [] => VNaN
  | x :: l' => VFloat (fold_left (fun m y => if Qle_bool m y then y else m) l' x)
  end.

(** The non-missing numbers of a column. *)
Definition numbers (s : Series) : list Q :=
  flat_map (fun v => match as_number v with Some q => [q] | None => [] end)
           (s_values (dropna s)).

(** [s.describe()] on an object or boolean column. *)
Definition describe_categorical_1d (s : Series) : list value :=
  let objcounts := value_counts s in
  let count_unique := List.length objcounts in
  let top_freq :=
    match objcounts with
    | (top, freq) :: _ => (top, VInt (Z.of_nat freq))
    | [] => (VNaN, VNaN)
    end in
  [ VInt (Z.of_nat (series_count s)); VInt (Z.of_nat count_unique);
    fst top_freq; snd top_freq ].

Section Describe.

(** [mean], [std] and the quartiles of a numeric column are computed by
    pandas in floating point; the embedding takes them as given, by the
    name of the statistic and the non-missing numbers of the column. *)
Variable float_stat : string -> list Q -> value.

(** [s.describe()] on a numeric column. *)
Definition describe_numeric_1d (s : Series) : list value :=
  let xs := numbers s in
  [ VFloat (inject_Z (Z.of_nat (series_count s)));
    float_stat "mean" xs; float_stat "std" xs;
    Qmin_list xs;
    float_stat "25%" xs; float_stat "50%" xs; float_stat "75%" xs;
    Qmax_list xs ].

(** [df.describe()] on a frame of numeric columns. *)
Definition describe_numeric (df : DataFrame) : Table label :=
  mkTable ["count"; "mean"; "std"; "min"; "25%"; "50%"; "75%"; "max"]
          (map (fun lc => (fst lc, describe_numeric_1d (snd lc))) (cols df)).

(** [df.describe(include='all')] on a frame of object and boolean columns. *)
Definition describe_all (df : DataFrame) : Table label :=
  mkTable ["count"; "unique"; "top"; "freq"]
          (map (fun lc => (fst lc, describe_categorical_1d (snd lc))) (cols df)).

(** ** descriptive_analysis *)

(** [lambda x: x.dropna().value_counts().iloc[0] if not x.dropna().empty else np.nan] *)
Definition numeric_freq (x : Series) : result value :=
  if negb (series_empty (dropna x)) then
    n <- iloc0 (value_counts (dropna x)) ;;
    Ok (VInt (Z.of_nat n))
  else Ok VNaN.

(** [lambda x: x.value_counts().iloc[0] if not x.empty else np.nan] *)
Definition non_numeric_freq (x : Series) : result value :=
  if negb (series_empty x) then
    n <- iloc0 (value_counts x) ;;
    Ok (VInt (Z.of_nat n))
  else Ok VNaN.

(** [numeric_stats] and [non_numeric_stats] are bound in the branches of the
    two [if]s only; they are options here, read by [local] at [pd.concat]. *)
Definition descriptive_analysis (df : DataFrame) : result Summary :=
  let numeric_cols := df_columns (select_dtypes df is_number) in
  numeric_stats <-
    (if index_any numeric_cols then
       let stats := applymap format_number (describe_numeric (getitem_list df numeric_cols)) in
       let stats :=
         set_row_f64 stats "missing"
           (map format_number (frame_isnull_sum (getitem_list df numeric_cols))) in
       freq <- frame_apply numeric_freq (getitem_list df numeric_cols) ;;
       let stats := set_row_f64 stats "freq" (map format_number freq) in
       Ok (Some (with_header "Numeric Data" stats))
     else Ok None) ;;
  let non_numeric_cols := df_columns (select_dtypes df (fun d => negb (is_number d))) in
  non_numeric_stats <-
    (if index_any non_numeric_cols then
       let stats := describe_all (getitem_list df non_numeric_cols) in
       let stats :=
         set_row stats "missing" (frame_isnull_sum (getitem_list df non_numeric_cols)) in
       freq <- frame_apply non_numeric_freq (getitem_list df non_numeric_cols) ;;
       let stats := set_row stats "freq" freq in
       Ok (Some (with_header "Non-Numeric Data" stats))
     else Ok None) ;;
  a <- local numeric_stats ;;
  b <- local non_numeric_stats ;;
  let combined_stats := concat_axis1 a b in
  Ok (transpose combined_stats).

End Describe.


(** ** Vocabulary of the statements about filter_cols *)

(** The reason string that the loop of [filter_cols] records for a column
    with a string label, [None] when it records nothing. *)
Definition flag_reason (tc : Q) (lc : label * Series) : option string :=
  match fst lc with
  | LStr s =>
      match gt_count (isnull_sum (snd lc)) tc, startswith (lower s) "unnamed" with
      | true, true => Some "Excessive Missing Values, Unnamed Column"
      | true, false => Some "Excessive Missing Values"
      | false, true => Some "Unnamed Column"
      | false, false => None
      end
  | LInt _ => None
  end.

Definition flagged (tc : Q) (lc : label * Series) : bool :=
  match flag_reason tc lc with
  | Some _ => true
  | None => false
  end.

Definition flagged_rows (tc : Q) (cs : list (label * Series)) : dict :=
  flat_map (fun lc => match flag_reason tc lc with
                      | Some r => [(fst lc, r)]
                      | None => []
                      end) cs.

(** The labels of a frame are strings, no two of them equal. *)
Definition str_labels (df : DataFrame) : Prop :=
  Forall (fun l => is_str l = true) (df_columns df).

Definition distinct_labels (df : DataFrame) : Prop := NoDup (df_columns df).

(** "Starts with [p], ignoring case", letter by letter and without [lower]:
    every character of the prefix is the letter of [p] or its capital. *)
Definition upper_ascii (c : ascii) : ascii :=
  let n := nat_of_ascii c in
  if (97 <=? n)%nat && (n <=? 122)%nat then ascii_of_nat (n - 32) else c.

Fixpoint starts_with_nocase (s p : string) : bool :=
  match p, s with
  | EmptyString, _ => true
  | String _ _, EmptyString => false
  | String d p', String c s' =>
      (Ascii.eqb c d || Ascii.eqb c (upper_ascii d)) && starts_with_nocase s' p'
  end.

(** The columns of [cs] that carry the label [l]. *)
Definition carrying (cs : list (label * Series)) (l : label) : list (label * Series) :=
  filter (fun lc => label_eqb (fst lc) l) cs.

(** What [filter_cols] returns on a frame it accepts: the columns that are
    not flagged, and the flagged labels with their reasons. *)
Definition kept_frame (tc : Q) (df : DataFrame) : DataFrame :=
  mkDataFrame (nrows df) (filter (fun lc => negb (flagged tc lc)) (cols df)).

Definition removal_report (tc : Q) (df : DataFrame) : Report :=
  mkReport ["Column"; "Reason"]
    (dict_keys (flagged_rows tc (cols df)))
    (dict_values (flagged_rows tc (cols df))).

Definition empty_report : Report := mkReport ["Column"; "Reason"] [] [].


(** ** Example frames *)

Definition ints (l : list Z) : Series := mkSeries Int64 (map VInt l).

(** A float column with [k] missing cells followed by [m] cells [1.0]. *)
Definition floats_missing (k m : nat) : Series :=
  mkSeries Float64 (repeat VNaN k ++ repeat (VFloat 1%Q) m).

(** Scenario 1 of the specification: [A] and [Unnamed: 0], ten rows. *)
Definition df_scenario1 : DataFrame :=
  mkDataFrame 10
    [ (LStr "A", ints [1; 2; 3; 4; 5; 6; 7; 8; 9; 10]%Z);
      (LStr "Unnamed: 0", ints [0; 1; 2; 3; 4; 5; 6; 7; 8; 9]%Z) ].

(** Scenario 2: [B] has nine missing cells out of ten. *)
Definition df_scenario2 : DataFrame :=
  mkDataFrame 10 [ (LStr "B", floats_missing 9 1) ].

(** One column with an integer label, as [pd.DataFrame([[1], [2]])] makes. *)
Definition df_int_label : DataFrame :=
  mkDataFrame 2 [ (LInt 0, ints [1; 2]%Z) ].


(** Two columns under one string label. *)
Definition df_repeated_label : DataFrame :=
  mkDataFrame 2 [ (LStr "a", ints [1; 2]%Z); (LStr "a", ints [3; 4]%Z) ].

(** A column that is missing throughout and one that is flagged twice. *)
Definition df_all_missing : DataFrame :=
  mkDataFrame 3
    [ (LStr "empty", floats_missing 3 0);
      (LStr "UNNAMED: 1", floats_missing 3 0);
      (LStr "kept", floats_missing 1 2) ].


(** Frames for [descriptive_analysis]. *)

(** Scenario 4: one object column. *)
Definition df_category : DataFrame :=
  mkDataFrame 4
    [ (LStr "Category", mkSeries Object [VStr "x"; VStr "x"; VStr "y"; VNone]) ].

(** One numeric column. *)
Definition df_numeric_only : DataFrame :=
  mkDataFrame 3 [ (LStr "A", ints [1; 2; 3]%Z) ].

(** No column, no row. *)
Definition df_empty : DataFrame := mkDataFrame 0 [].

(** A numeric column and an object column. *)
Definition df_mixed : DataFrame :=
  mkDataFrame 4
    [ (LStr "C", mkSeries Float64 [VFloat (1005 # 1000); VFloat 2; VNaN; VFloat 2]);
      (LStr "Category", mkSeries Object [VStr "x"; VStr "x"; VStr "y"; VNone]) ].

(** A numeric column and an object column that holds [None] only. *)
Definition df_none_column : DataFrame :=
  mkDataFrame 2
    [ (LStr "C", ints [1; 2]%Z);
      (LStr "N", mkSeries Object [VNone; VNone]) ].

(** A stand-in for the floating-point statistics. *)
Definition no_float_stat (name : string) (xs : list Q) : value := VNaN.

(** The group label under which a column is summarised. *)
Definition group_of (c : Series) : string :=
  if is_number (s_dtype c) then "Numeric Data" else "Non-Numeric Data".

Definition numeric_part (df : DataFrame) : list (label * Series) :=
  filter (fun lc => is_number (s_dtype (snd lc))) (cols df).

Definition non_numeric_part (df : DataFrame) : list (label * Series) :=
  filter (fun lc => negb (is_number (s_dtype (snd lc)))) (cols df).

(** The column keys of a table of statistics. *)
Definition keys {K : Type} (t : Table K) : list K := map fst (t_columns t).


(** ** Further frames and vocabulary *)

(** A frame without rows: two empty columns. *)
Definition df_no_rows : DataFrame :=
  mkDataFrame 0
    [ (LStr "a", mkSeries Float64 []); (LStr "Unnamed: 3", mkSeries Object []) ].

(** Both groups present, the numeric column under the label [0]. *)
Definition df_falsy_label : DataFrame :=
  mkDataFrame 2
    [ (LInt 0, ints [1; 2]%Z); (LStr "s", mkSeries Object [VStr "x"; VStr "y"]) ].

(** The number of cells of [vs] that equal [v], as Python compares them. *)
Definition occurrences (v : value) (vs : list value) : nat :=
  List.length (filter (value_eqb v) vs).

(** The names of the statistics of a summary, in the order of its columns. *)
Definition summary_names : list string :=
  ["count"; "mean"; "std"; "min"; "25%"; "50%"; "75%"; "max";
   "missing"; "freq"; "unique"; "top"].

Definition numeric_labels (df : DataFrame) : list label :=
  df_columns (select_dtypes df is_number).

Definition non_numeric_labels (df : DataFrame) : list label :=
  df_columns (select_dtypes df (fun d => negb (is_number d))).

(** A column that has a row and no value. *)
Definition all_missing (c : Series) : bool :=
  negb (series_empty c) && forallb isnull (s_values c).

(** Whether a non-numeric column of the frame has a row and no value. *)
Definition has_all_missing_column (df : DataFrame) : bool :=
  existsb (fun lc => negb (is_number (s_dtype (snd lc))) && all_missing (snd lc))
          (cols df).

(** The value of a call that returned. *)
Definition returned (r : result value) : value :=
  match r with
  | Ok v => v
  | Raise _ => VNaN
  end.

(** The two tables that [descriptive_analysis] builds before it joins them,
    from the selected columns and the row of [freq] values. *)
Definition numeric_table (float_stat : string -> list Q -> value)
    (sub : DataFrame) (freq : list value) : Table (string * label) :=
  with_header "Numeric Data"
    (set_row_f64
       (set_row_f64 (applymap format_number (describe_numeric float_stat sub)) "missing"
                    (map format_number (frame_isnull_sum sub)))
       "freq" (map format_number freq)).

Definition non_numeric_table (sub : DataFrame) (freq : list value)
    : Table (string * label) :=
  with_header "Non-Numeric Data"
    (set_row (set_row (describe_all sub) "missing" (frame_isnull_sum sub)) "freq" freq).

(** The summary of [df_mixed] when the floating-point statistics are left
    out. *)
Definition summary_mixed : Summary :=
  mkSummary summary_names
    [ (("Numeric Data", LStr "C"),
       [VFloat (300 # 100); VNaN; VNaN; VFloat (100 # 100); VNaN; VNaN; VNaN;
        VFloat (200 # 100); VFloat 1; VFloat 2; VNaN; VNaN]);
      (("Non-Numeric Data", LStr "Category"),
       [VInt 3; VNaN; VNaN; VNaN; VNaN; VNaN; VNaN; VNaN;
        VInt 1; VInt 2; VInt 2; VStr "x"]) ].

(** The head of a list of counts is at least every count of the list. *)
Definition head_is_largest (l : list (value * nat)) : Prop :=
  match l with
  | [] => True
  | y :: _ => forall z, In z l -> snd z <= snd y
  end.

(** No two values of the list are equal, as Python compares them. *)
Fixpoint apart (ks : list value) : Prop :=
  match ks with
  | [] => True
  | k :: ks' => (forall w, In w ks' -> value_eqb k w = false) /\ apart ks'
  end.

(** The invariant of the tally of the values [vs]: every key is a value of
    [vs] with its number of occurrences, every value of [vs] is equal to a
    key, and no two keys are equal. *)
Definition tally_of (vs : list value) (t : list (value * nat)) : Prop :=
  (forall w n, In (w, n) t -> In w vs /\ n = occurrences w vs) /\
  (forall v, In v vs -> exists w n, In (w, n) t /\ value_eqb w v = true) /\
  apart (map fst t).


(** ** The threshold in binary64 *)

(** Rounding of a real number to the nearest [float] (binary64: 53
    significant bits, subnormals down to [2^-1074], ties to even). The
    argument is scaled by [2^1074]; [binade x] is the exponent of the last
    kept bit on that scale. There is no overflow to infinity here: a number
    beyond the largest double is rounded to 53 bits like any other, and it
    compares with a count like the infinity does. *)
Definition binade (x : Q) : Z :=
  Z.max 0 (Z.log2 (Qfloor (Qabs x * inject_Z (2 ^ 1074))) - 52).

Definition round_binary64 (x : Q) : Q :=
  (inject_Z (round_half_even (x * inject_Z (2 ^ 1074) / inject_Z (2 ^ binade x))
             * 2 ^ binade x)
   / inject_Z (2 ^ 1074))%Q.

(** [threshold_count = missing_threshold * len(df)] as Python computes it
    for a [float] threshold: [len(df)] converts to a float (exactly, below
    [2^53] rows) and the product is rounded to the nearest double. *)
Definition threshold_count_f64 (missing_threshold : Q) (df : DataFrame) : Q :=
  round_binary64 (missing_threshold * inject_Z (Z.of_nat (nrows df))).

(** [filter_cols] from its second statement on, for a given value of
    [threshold_count]. *)
Definition filter_cols_from (tc : Q) (df : DataFrame) : result (DataFrame * Report) :=
  cols_to_filter <- filter_loop df tc (df_columns df) [] ;;
  df_filtered <- drop_columns df (dict_keys cols_to_filter) ;;
  let report_df :=
    mkReport ["Column"; "Reason"] (dict_keys cols_to_filter)
             (dict_values cols_to_filter) in
  Ok (df_filtered, report_df).

(** [filter_cols] with the product of the threshold and the row count
    rounded as the floating-point multiplication rounds it. The test
    [df[col].isnull().sum() > threshold_count] converts the count to a float,
    exactly as long as the frame has fewer than [2^53] rows. *)
Definition filter_cols_f64 (df : DataFrame) (missing_threshold : Q)
    : result (DataFrame * Report) :=
  filter_cols_from (threshold_count_f64 missing_threshold df) df.

(** The double that the literal [0.7] denotes. *)
Definition double_0_7 : Q := (3152519739159347 # 4503599627370496)%Q.

(** One column with seven missing cells out of ten. *)
Definition df_seven_of_ten : DataFrame :=
  mkDataFrame 10 [ (LStr "B", floats_missing 7 3) ].

Example filter_scenario1 :
  filter_cols df_scenario1 default_threshold =
  Ok (mkDataFrame 10 [ (LStr "A", ints [1; 2; 3; 4; 5; 6; 7; 8; 9; 10]%Z) ],
      mkReport ["Column"; "Reason"] [LStr "Unnamed: 0"] ["Unnamed Column"]).
Proof. reflexivity. Qed.

Example filter_scenario2 :
  filter_cols df_scenario2 (8 # 10)%Q =
  Ok (mkDataFrame 10 [],
      mkReport ["Column"; "Reason"] [LStr "B"] ["Excessive Missing Values"]).
Proof. reflexivity. Qed.

Example filter_all_missing_half :
  filter_cols df_all_missing (1 # 2)%Q =
  Ok (mkDataFrame 3 [ (LStr "kept", floats_missing 1 2) ],
      mkReport ["Column"; "Reason"] [LStr "empty"; LStr "UNNAMED: 1"]
        ["Excessive Missing Values";
         "Excessive Missing Values, Unnamed Column"]).
Proof. reflexivity. Qed.

Example filter_int_label :
  filter_cols df_int_label default_threshold = Raise AttributeError.
Proof. reflexivity. Qed.

Example filter_repeated_label :
  filter_cols df_repeated_label default_threshold = Raise ValueError.
Proof. reflexivity. Qed.

(** * Properties of filter_cols *)

Lemma label_eqb_eq (a b : label) : label_eqb a b = true <-> a = b.
Proof.
  destruct a as [s | x], b as [t | y]; simpl; split; intro H;
    try discriminate; try congruence.
  - apply String.eqb_eq in H. now subst.
  - injection H as ->. apply String.eqb_refl.
  - apply Z.eqb_eq in H. now subst.
  - injection H as ->. apply Z.eqb_refl.
Qed.

Lemma label_eqb_refl (a : label) : label_eqb a a = true.
Proof. now apply label_eqb_eq. Qed.

Lemma label_eqb_neq (a b : label) : a <> b -> label_eqb a b = false.
Proof.
  intro H. destruct (label_eqb a b) eqn:E; [|reflexivity].
  apply label_eqb_eq in E. contradiction.
Qed.

Lemma label_mem_In (l : label) (ls : list label) :
  label_mem l ls = true <-> In l ls.
Proof.
  unfold label_mem. rewrite existsb_exists. split.
  - intros (x & Hx & E). apply label_eqb_eq in E. now subst.
  - intro H. exists l. split; [assumption | apply label_eqb_refl].
Qed.

Lemma carrying_notin cs l : ~ In l (map fst cs) -> carrying cs l = [].
Proof.
  unfold carrying. induction cs as [| [k c] cs IH]; simpl; intro H; [reflexivity|].
  rewrite label_eqb_neq by (intro E; apply H; now left).
  apply IH. intro Hin. apply H. now right.
Qed.

Lemma carrying_in cs l : In l (map fst cs) -> carrying cs l <> [].
Proof.
  unfold carrying. induction cs as [| [k c] cs IH]; simpl; intro H; [contradiction|].
  destruct (label_eqb k l) eqn:E; [discriminate|].
  destruct H as [H | H]; [|now apply IH].
  subst. now rewrite label_eqb_refl in E.
Qed.

Lemma carrying_unique cs l c :
  NoDup (map fst cs) -> In (l, c) cs -> carrying cs l = [(l, c)].
Proof.
  unfold carrying. induction cs as [| [k c'] cs IH]; simpl; intros ND H; [contradiction|].
  inversion ND as [| ? ? Hk ND']; subst.
  destruct H as [H | H].
  - injection H as -> ->. rewrite label_eqb_refl.
    f_equal. now apply carrying_notin.
  - rewrite label_eqb_neq.
    + now apply IH.
    + intros ->. apply Hk. change l with (fst (l, c)). now apply in_map.
Qed.

(** When every label selects exactly one column, no label is repeated. *)
Lemma carrying_single_NoDup cs :
  (forall l, In l (map fst cs) -> exists x, carrying cs l = [x]) ->
  NoDup (map fst cs).
Proof.
  induction cs as [| [k c] cs IH]; simpl; intro H; [constructor|].
  constructor.
  - intro Hin. destruct (H k (or_introl eq_refl)) as [x Hx].
    unfold carrying in Hx. simpl in Hx. rewrite label_eqb_refl in Hx.
    injection Hx as _ Hx. now apply (carrying_in cs k).
  - apply IH. intros l Hl. destruct (H l (or_intror Hl)) as [x Hx].
    unfold carrying in Hx. simpl in Hx.
    destruct (label_eqb k l) eqn:E.
    + injection Hx as _ Hx. now apply carrying_in in Hl.
    + now exists x.
Qed.

Lemma getitem_series df l c :
  distinct_labels df -> In (l, c) (cols df) -> getitem df l = Ok (SelSeries c).
Proof.
  intros ND H. unfold getitem.
  change (filter _ (cols df)) with (carrying (cols df) l).
  now rewrite (carrying_unique _ _ _ ND H).
Qed.

Lemma getitem_series_inv df l s :
  getitem df l = Ok (SelSeries s) -> exists k, carrying (cols df) l = [(k, s)].
Proof.
  unfold getitem. change (filter _ (cols df)) with (carrying (cols df) l).
  destruct (carrying (cols df) l) as [| [k c] [| y r]]; intro H; try discriminate.
  injection H as ->. now exists k.
Qed.

Lemma carrying_In cs l x : In x (carrying cs l) -> In x cs /\ fst x = l.
Proof.
  unfold carrying. rewrite filter_In. intros [H E]. split; [assumption|].
  now apply label_eqb_eq.
Qed.

(** ** One iteration *)

Lemma filter_step_series df tc s c d :
  getitem df (LStr s) = Ok (SelSeries c) ->
  filter_step df tc (LStr s) d =
  Ok (match flag_reason tc (LStr s, c) with
      | Some r => dict_set d (LStr s) r
      | None => d
      end).
Proof.
  intro G. unfold filter_step, flag_reason. rewrite G. simpl.
  destruct (gt_count (isnull_sum c) tc); simpl;
    destruct (startswith (lower s) "unnamed"); reflexivity.
Qed.

Lemma filter_step_ok_inv df tc l d d' :
  filter_step df tc l d = Ok d' ->
  is_str l = true /\ exists c, getitem df l = Ok (SelSeries c).
Proof.
  unfold filter_step. destruct (getitem df l) as [[c | fr] | e]; simpl; try discriminate.
  destruct l as [s | z]; simpl; [|discriminate].
  intros _. split; [reflexivity | now exists c].
Qed.

Lemma dict_set_fresh (d : dict) k v :
  ~ In k (dict_keys d) -> dict_set d k v = d ++ [(k, v)].
Proof.
  induction d as [| [k' v'] d IH]; simpl; intro H; [reflexivity|].
  rewrite label_eqb_neq by (intro E; apply H; now left).
  f_equal. apply IH. intro Hin. apply H. now right.
Qed.

(** ** The loop *)

Lemma filter_loop_rows df tc cs : forall d,
  (forall lc, In lc cs ->
     is_str (fst lc) = true /\ getitem df (fst lc) = Ok (SelSeries (snd lc))) ->
  NoDup (map fst cs) ->
  (forall k, In k (dict_keys d) -> ~ In k (map fst cs)) ->
  filter_loop df tc (map fst cs) d = Ok (d ++ flagged_rows tc cs).
Proof.
  induction cs as [| [l c] cs IH]; intros d Hcs ND Hd; simpl.
  - now rewrite app_nil_r.
  - inversion ND as [| ? ? Hl ND']; subst.
    destruct (Hcs (l, c) (or_introl eq_refl)) as [Hs G]. simpl in Hs, G.
    destruct l as [s | z]; [|discriminate].
    rewrite (filter_step_series _ _ _ _ _ G). simpl.
    destruct (flag_reason tc (LStr s, c)) as [r |] eqn:R.
    + rewrite dict_set_fresh by (intro Hin; apply (Hd _ Hin); now left).
      rewrite IH.
      * now rewrite <- app_assoc.
      * intros lc Hlc. apply Hcs. now right.
      * assumption.
      * intros k Hk. unfold dict_keys in Hk. rewrite map_app in Hk.
        apply in_app_or in Hk. destruct Hk as [Hk | [<- | []]].
        -- intro Hin. apply (Hd _ Hk). now right.
        -- assumption.
    + apply IH.
      * intros lc Hlc. apply Hcs. now right.
      * assumption.
      * intros k Hk Hin. apply (Hd _ Hk). now right.
Qed.

Lemma filter_loop_ok_inv df tc ls : forall d d',
  filter_loop df tc ls d = Ok d' ->
  forall l, In l ls -> is_str l = true /\ exists c, getitem df l = Ok (SelSeries c).
Proof.
  induction ls as [| k ls IH]; intros d d' H l Hl; [contradiction|].
  simpl in H. destruct (filter_step df tc k d) as [d1 | e] eqn:S; [|discriminate].
  simpl in H. destruct Hl as [<- | Hl].
  - eapply filter_step_ok_inv; eassumption.
  - eapply IH; eassumption.
Qed.

(** ** The dictionary built by the loop *)

Lemma flagged_rows_keys tc cs :
  dict_keys (flagged_rows tc cs) = map fst (filter (flagged tc) cs).
Proof.
  unfold dict_keys, flagged_rows, flagged.
  induction cs as [| lc cs IH]; simpl; [reflexivity|].
  destruct (flag_reason tc lc); simpl; now rewrite <- IH.
Qed.

Lemma flagged_rows_In tc cs l r :
  In (l, r) (flagged_rows tc cs) <->
  exists c, In (l, c) cs /\ flag_reason tc (l, c) = Some r.
Proof.
  unfold flagged_rows. rewrite in_flat_map. split.
  - intros ([k c] & Hin & H). destruct (flag_reason tc (k, c)) as [r' |] eqn:R.
    + destruct H as [H | []]. injection H as -> ->. now exists c.
    + contradiction.
  - intros (c & Hin & R). exists (l, c). split; [assumption|].
    rewrite R. now left.
Qed.

Lemma combine_keys_values (d : dict) : combine (dict_keys d) (dict_values d) = d.
Proof.
  induction d as [| [k v] d IH]; simpl; [reflexivity | now rewrite IH].
Qed.

Lemma flagged_label_mem tc cs lc :
  NoDup (map fst cs) -> In lc cs ->
  label_mem (fst lc) (map fst (filter (flagged tc) cs)) = flagged tc lc.
Proof.
  intros ND Hin. destruct (flagged tc lc) eqn:F.
  - apply label_mem_In. apply in_map. apply filter_In. now split.
  - destruct (label_mem _ _) eqn:M; [|reflexivity].
    apply label_mem_In in M. apply in_map_iff in M.
    destruct M as ([k c] & E & M). apply filter_In in M. destruct M as [M F'].
    destruct lc as [l c0]. simpl in E. subst k.
    assert (c = c0) as ->.
    { pose proof (carrying_unique _ _ _ ND M) as U.
      rewrite (carrying_unique _ _ _ ND Hin) in U. congruence. }
    congruence.
Qed.

Lemma drop_flagged tc df :
  distinct_labels df ->
  drop_columns df (dict_keys (flagged_rows tc (cols df))) = Ok (kept_frame tc df).
Proof.
  intro ND. unfold drop_columns. rewrite flagged_rows_keys.
  assert (forallb (fun l => label_mem l (df_columns df))
            (map fst (filter (flagged tc) (cols df))) = true) as ->.
  { apply forallb_forall. intros l Hl. apply label_mem_In.
    apply in_map_iff in Hl. destruct Hl as (lc & <- & Hl).
    apply filter_In in Hl. apply in_map. tauto. }
  unfold kept_frame. do 2 f_equal. apply filter_ext_in.
  intros lc Hin. now rewrite (flagged_label_mem tc _ _ ND Hin).
Qed.

(** ** filter_cols on the frames it accepts, and only on them *)

Lemma filter_cols_accepts df t :
  str_labels df -> distinct_labels df ->
  filter_cols df t =
  Ok (kept_frame (threshold_count t df) df, removal_report (threshold_count t df) df).
Proof.
  intros Hs ND. unfold filter_cols, df_columns.
  rewrite (filter_loop_rows df (threshold_count t df) (cols df) []).
  - simpl. rewrite (drop_flagged _ _ ND). reflexivity.
  - intros [l c] Hin. simpl. split.
    + unfold str_labels in Hs. rewrite Forall_forall in Hs. apply Hs.
      unfold df_columns. change l with (fst (l, c)). now apply in_map.
    + now apply getitem_series.
  - exact ND.
  - intros k [].
Qed.

Lemma filter_cols_ok_inv df t r :
  filter_cols df t = Ok r -> str_labels df /\ distinct_labels df.
Proof.
  unfold filter_cols. intro H.
  destruct (filter_loop df (threshold_count t df) (df_columns df) []) as [d | e] eqn:L;
    [|discriminate].
  pose proof (filter_loop_ok_inv _ _ _ _ _ L) as I. split.
  - apply Forall_forall. intros l Hl. now apply I.
  - apply carrying_single_NoDup. intros l Hl.
    destruct (I l Hl) as [_ [c G]]. apply getitem_series_inv in G.
    destruct G as [k G]. now exists (k, c).
Qed.

Lemma filter_cols_ok df t df' rep :
  filter_cols df t = Ok (df', rep) ->
  str_labels df /\ distinct_labels df /\
  df' = kept_frame (threshold_count t df) df /\
  rep = removal_report (threshold_count t df) df.
Proof.
  intro H. destruct (filter_cols_ok_inv _ _ _ H) as [Hs ND].
  rewrite (filter_cols_accepts _ _ Hs ND) in H. injection H as <- <-. tauto.
Qed.

Lemma report_rows_removal tc df :
  report_rows (removal_report tc df) = flagged_rows tc (cols df).
Proof. unfold report_rows, removal_report. simpl. apply combine_keys_values. Qed.

Lemma filter_all_true {A : Type} (f : A -> bool) (l : list A) :
  filter (fun x => negb (f x)) l = l <-> filter f l = [].
Proof.
  induction l as [| a l IH]; simpl; [tauto|].
  destruct (f a); simpl.
  - split; [|discriminate]. intro H.
    assert (List.length (filter (fun x => negb (f x)) l) <= List.length l)
      by apply filter_length_le.
    rewrite H in H0. simpl in H0. lia.
  - rewrite <- IH. split; intro H; [now injection H | now f_equal].
Qed.

(** ** Helper facts on the two rules *)

Lemma gt_count_lt n tc :
  gt_count n tc = true <-> (tc < inject_Z (Z.of_nat n))%Q.
Proof.
  unfold gt_count. rewrite negb_true_iff. split; intro H.
  - apply Qnot_le_lt. intro L. apply Qle_bool_iff in L. congruence.
  - destruct (Qle_bool _ _) eqn:E; [|reflexivity].
    apply Qle_bool_iff in E. exfalso. now apply (Qlt_not_le _ _ H).
Qed.

Lemma gt_count_le n tc :
  gt_count n tc = false <-> (inject_Z (Z.of_nat n) <= tc)%Q.
Proof.
  unfold gt_count. rewrite negb_false_iff. apply Qle_bool_iff.
Qed.

Lemma lower_letter_cases (d c : ascii) :
  In d ["u"; "n"; "a"; "m"; "e"; "d"]%char ->
  Ascii.eqb (lower_ascii c) d = (Ascii.eqb c d || Ascii.eqb c (upper_ascii d)).
Proof.
  intro H. simpl in H.
  destruct H as [<- | [<- | [<- | [<- | [<- | [<- | []]]]]]];
    destruct c as [[] [] [] [] [] [] [] []]; reflexivity.
Qed.

Lemma prefix_lower_nocase (p : string) :
  Forall (fun d => In d ["u"; "n"; "a"; "m"; "e"; "d"]%char) (list_ascii_of_string p) ->
  forall s, String.prefix p (lower s) = starts_with_nocase s p.
Proof.
  induction p as [| d p IH]; intros Hp s; [now destruct s|].
  simpl in Hp. inversion Hp as [| ? ? Hd Hp']; subst.
  destruct s as [| c s]; [reflexivity|].
  cbn [lower String.prefix starts_with_nocase].
  rewrite <- (lower_letter_cases d c Hd), <- (IH Hp' s).
  destruct (Ascii.ascii_dec d (lower_ascii c)) as [E | E].
  - rewrite <- E, Ascii.eqb_refl. reflexivity.
  - assert (Ascii.eqb (lower_ascii c) d = false) as ->
      by (apply Ascii.eqb_neq; congruence).
    reflexivity.
Qed.

Lemma unnamed_nocase (s : string) :
  startswith (lower s) "unnamed" = starts_with_nocase s "unnamed".
Proof.
  unfold startswith. apply prefix_lower_nocase.
  simpl. repeat constructor; simpl; tauto.
Qed.

Lemma unique_column df l c c' :
  distinct_labels df -> In (l, c) (cols df) -> In (l, c') (cols df) -> c = c'.
Proof.
  intros ND H H'. pose proof (carrying_unique _ _ _ ND H) as U.
  rewrite (carrying_unique _ _ _ ND H') in U. congruence.
Qed.

(** The rows of the report, for a frame that [filter_cols] accepts. *)
Lemma report_row_iff df t df' rep l c r :
  filter_cols df t = Ok (df', rep) -> In (l, c) (cols df) ->
  In (l, r) (report_rows rep) <-> flag_reason (threshold_count t df) (l, c) = Some r.
Proof.
  intros H Hin. destruct (filter_cols_ok _ _ _ _ H) as (_ & ND & _ & ->).
  rewrite report_rows_removal, flagged_rows_In. split.
  - intros (c' & Hin' & R). now rewrite (unique_column _ _ _ _ ND Hin Hin').
  - intro R. now exists c.
Qed.

Lemma kept_iff df t df' rep lc :
  filter_cols df t = Ok (df', rep) ->
  In lc (cols df') <-> In lc (cols df) /\ flagged (threshold_count t df) lc = false.
Proof.
  intro H. destruct (filter_cols_ok _ _ _ _ H) as (_ & _ & -> & _).
  unfold kept_frame. simpl. rewrite filter_In, negb_true_iff. tauto.
Qed.

(** * The claims on filter_cols *)




(** C8: when [filter_cols df t] returns [(df', rep)], [filter_cols df' t]
    returns [df'] again, with the empty report: a second pass with the same
    threshold removes nothing. *)
Theorem filter_cols_idempotent (df : DataFrame) (t : Q) (df' : DataFrame) (rep : Report) :
  filter_cols df t = Ok (df', rep) ->
  filter_cols df' t = Ok (df', empty_report).
Proof.
  intro H. destruct (filter_cols_ok _ _ _ _ H) as (Hs & ND & -> & _).
  set (tc := threshold_count t df).
  assert (Hsub : forall l, In l (df_columns (kept_frame tc df)) -> In l (df_columns df)).
  { intros l Hl. unfold df_columns, kept_frame in *. simpl in Hl.
    apply in_map_iff in Hl. destruct Hl as (lc & <- & Hl).
    apply filter_In in Hl. apply in_map. tauto. }
  assert (Hs' : str_labels (kept_frame tc df)).
  { unfold str_labels in *. rewrite Forall_forall in *. auto. }
  assert (ND' : distinct_labels (kept_frame tc df)).
  { unfold distinct_labels, df_columns, kept_frame in *. simpl.
    clear - ND. induction (cols df) as [| lc cs IH]; simpl; [constructor|].
    inversion ND as [| ? ? Hn ND']; subst.
    destruct (negb (flagged tc lc)); simpl; [|now apply IH].
    constructor; [|now apply IH].
    intro Hin. apply Hn. apply in_map_iff in Hin.
    destruct Hin as (x & E & Hx). apply filter_In in Hx.
    rewrite <- E. apply in_map. tauto. }
  rewrite (filter_cols_accepts _ _ Hs' ND').
  assert (threshold_count t (kept_frame tc df) = tc) as -> by reflexivity.
  assert (F : filter (flagged tc) (cols (kept_frame tc df)) = []).
  { unfold kept_frame. simpl. clear. induction (cols df) as [| lc cs IH]; [reflexivity|].
    simpl. destruct (flagged tc lc) eqn:E; simpl; [assumption|].
    now rewrite E. }
  do 2 f_equal.
  - apply filter_all_true in F. unfold kept_frame at 1. rewrite F.
    reflexivity.
  - unfold removal_report, empty_report.
    assert (flagged_rows tc (cols (kept_frame tc df)) = []) as ->; [|reflexivity].
    pose proof (flagged_rows_keys tc (cols (kept_frame tc df))) as K. rewrite F in K.
    destruct (flagged_rows tc (cols (kept_frame tc df))); [reflexivity | discriminate].
Qed.

Lemma filter_cols_idempotent_witness :
  filter_cols df_scenario1 default_threshold =
    Ok (mkDataFrame 10 [ (LStr "A", ints [1; 2; 3; 4; 5; 6; 7; 8; 9; 10]%Z) ],
        mkReport ["Column"; "Reason"] [LStr "Unnamed: 0"] ["Unnamed Column"]) /\
  filter_cols (mkDataFrame 10 [ (LStr "A", ints [1; 2; 3; 4; 5; 6; 7; 8; 9; 10]%Z) ])
    default_threshold =
    Ok (mkDataFrame 10 [ (LStr "A", ints [1; 2; 3; 4; 5; 6; 7; 8; 9; 10]%Z) ],
        empty_report).
Proof.
  split; [reflexivity|].
  apply (filter_cols_idempotent df_scenario1 default_threshold _
           (mkReport ["Column"; "Reason"] [LStr "Unnamed: 0"] ["Unnamed Column"])).
  reflexivity.
Defined.







Lemma isnull_sum_le_length (c : Series) :
  (isnull_sum c <= List.length (s_values c))%nat.
Proof. unfold isnull_sum. apply filter_length_le. Qed.

(** C10: with [missing_threshold = 1] no column of a well-shaped frame is
    flagged for its missing cells, not even a column that is missing
    throughout: every row of the report reads ["Unnamed Column"], and a
    column is removed exactly when its name starts with "unnamed". *)
Theorem threshold_one_flags_only_names (df df' : DataFrame) (rep : Report) :
  wf_shape df ->
  filter_cols df 1%Q = Ok (df', rep) ->
  (forall l c, In (l, c) (cols df) ->
     gt_count (isnull_sum c) (threshold_count 1%Q df) = false) /\
  (forall l r, In (l, r) (report_rows rep) -> r = "Unnamed Column") /\
  (forall s c, In (LStr s, c) (cols df) ->
     (In (LStr s, c) (cols df') <-> starts_with_nocase s "unnamed" = false)).
Proof.
  intros W H.
  assert (G : forall l c, In (l, c) (cols df) ->
     gt_count (isnull_sum c) (threshold_count 1%Q df) = false).
  { intros l c Hin. apply gt_count_le. unfold threshold_count.
    rewrite Qmult_1_l. rewrite <- Zle_Qle. apply inj_le.
    unfold wf_shape in W. rewrite Forall_forall in W.
    rewrite <- (W _ Hin). apply isnull_sum_le_length. }
  split; [exact G | split].
  - intros l r Hr. destruct (filter_cols_ok _ _ _ _ H) as (_ & _ & _ & ->).
    rewrite report_rows_removal in Hr. apply flagged_rows_In in Hr.
    destruct Hr as (c & Hin & R). unfold flag_reason in R. simpl in R.
    rewrite (G _ _ Hin) in R. destruct l as [s | z]; [|discriminate].
    destruct (startswith (lower s) "unnamed"); congruence.
  - intros s c Hin. rewrite (kept_iff _ _ _ _ _ H). unfold flagged, flag_reason.
    simpl. rewrite (G _ _ Hin), <- unnamed_nocase.
    destruct (startswith (lower s) "unnamed"); intuition congruence.
Qed.

Lemma threshold_one_flags_only_names_witness :
  gt_count (isnull_sum (floats_missing 3 0)) (threshold_count 1%Q df_all_missing) = false /\
  (In (LStr "empty", floats_missing 3 0)
      (cols (mkDataFrame 3 [ (LStr "empty", floats_missing 3 0);
                             (LStr "kept", floats_missing 1 2) ])) <->
   starts_with_nocase "empty" "unnamed" = false).
Proof.
  destruct (threshold_one_flags_only_names df_all_missing
              (mkDataFrame 3 [ (LStr "empty", floats_missing 3 0);
                               (LStr "kept", floats_missing 1 2) ])
              (mkReport ["Column"; "Reason"] [LStr "UNNAMED: 1"] ["Unnamed Column"]))
    as (G & _ & K).
  - unfold wf_shape. simpl. repeat constructor.
  - reflexivity.
  - split.
    + apply (G (LStr "empty")). simpl. tauto.
    + apply K. simpl. tauto.
Defined.

(** * Properties of format_number *)





(** * Properties of descriptive_analysis *)


Lemma raises_bind_all {A B : Type} (m : result A) (k : A -> result B) :
  (forall a, raises (k a)) -> raises (bind m k).
Proof. intro H. destruct m as [a | e]; [apply H | now exists e]. Qed.

(** ** value_counts and the two [freq] lambdas *)

Lemma tally_add_nonempty v t : tally_add v t <> [].
Proof. destruct t as [| [w n] t]; simpl; [|destruct (value_eqb w v)]; discriminate. Qed.

Lemma tally_nonempty vs : vs <> [] -> tally vs <> [].
Proof.
  unfold tally. intro H.
  assert (G : forall l t, t <> [] -> fold_left (fun t v => tally_add v t) l t <> []).
  { induction l as [| v l IH]; intros t Ht; simpl; [assumption|].
    apply IH. apply tally_add_nonempty. }
  destruct vs as [| v vs]; [contradiction|]. simpl.
  apply G. discriminate.
Qed.

Lemma insert_desc_nonempty x l : insert_desc x l <> [].
Proof. destruct l as [| y l]; simpl; [|destruct (snd y <=? snd x)%nat]; discriminate. Qed.

Lemma sort_desc_nonempty l : l <> [] -> sort_desc l <> [].
Proof.
  destruct l as [| x l]; [contradiction|]. intros _. simpl.
  apply insert_desc_nonempty.
Qed.

Lemma dropna_dropna s : dropna (dropna s) = dropna s.
Proof.
  unfold dropna. simpl. f_equal.
  induction (s_values s) as [| v l IH]; simpl; [reflexivity|].
  destruct (isnull v) eqn:E; simpl; [assumption|].
  rewrite E. simpl. now f_equal.
Qed.

Lemma value_counts_all_missing s :
  Forall (fun v => isnull v = true) (s_values s) -> value_counts s = [].
Proof.
  intro H. unfold value_counts, dropna. simpl.
  assert (filter (fun v => negb (isnull v)) (s_values s) = []) as ->; [|reflexivity].
  induction H as [| v l Hv _ IH]; simpl; [reflexivity|]. now rewrite Hv.
Qed.

(** The lambda of the numeric block never raises: its guard is on the
    values that remain after [dropna]. *)
Lemma numeric_freq_ok x : exists v, numeric_freq x = Ok v.
Proof.
  unfold numeric_freq, series_empty.
  destruct (s_values (dropna x)) as [| v l] eqn:E; simpl; [now exists VNaN|].
  unfold value_counts. rewrite dropna_dropna, E.
  destruct (sort_desc (tally (v :: l))) as [| [w n] r] eqn:S.
  - exfalso. revert S. apply sort_desc_nonempty, tally_nonempty. discriminate.
  - simpl. eauto.
Qed.


Lemma non_numeric_freq_error x e : non_numeric_freq x = Raise e -> e = IndexError.
Proof.
  unfold non_numeric_freq. destruct (negb (series_empty x)); [|discriminate].
  destruct (value_counts x) as [| [w n] r]; simpl; congruence.
Qed.

(** ** apply over the columns *)

Lemma apply_columns_ok f cs :
  (forall s, exists v, f s = Ok v) -> exists vs, apply_columns f cs = Ok vs.
Proof.
  intro H. induction cs as [| [l s] cs [vs IH]]; simpl; [eauto|].
  destruct (H s) as [v ->]. simpl. rewrite IH. simpl. eauto.
Qed.


Lemma apply_columns_error f cs e0 :
  (forall s e, f s = Raise e -> e = e0) ->
  forall e, apply_columns f cs = Raise e -> e = e0.
Proof.
  intros Hf. induction cs as [| [k s] cs IH]; simpl; intros e H; [discriminate|].
  destruct (f s) as [v | e'] eqn:F; simpl in H.
  - destruct (apply_columns f cs) as [vs | e'']; simpl in H; [discriminate|].
    injection H as <-. now apply IH.
  - injection H as <-. eapply Hf. eassumption.
Qed.

(** ** Selecting a group of columns by their labels *)


Lemma flat_map_carrying cs (p : label * Series -> bool) :
  NoDup (map fst cs) ->
  flat_map (carrying cs) (map fst (filter p cs)) = filter p cs.
Proof.
  intro ND.
  assert (G : forall sub, (forall x, In x sub -> In x cs) ->
                flat_map (carrying cs) (map fst sub) = sub).
  { induction sub as [| [l c] sub IH]; intro Hsub; simpl; [reflexivity|].
    rewrite (carrying_unique cs l c ND) by (apply Hsub; now left).
    simpl. f_equal. apply IH. intros x Hx. apply Hsub. now right. }
  apply G. intros x Hx. apply filter_In in Hx. tauto.
Qed.

Lemma select_labels_distinct df (keep : dtype -> bool) :
  distinct_labels df ->
  cols (getitem_list df (df_columns (select_dtypes df keep))) =
  filter (fun lc => keep (s_dtype (snd lc))) (cols df).
Proof.
  intro ND. unfold getitem_list, df_columns, select_dtypes. simpl.
  now apply (flat_map_carrying (cols df) (fun lc => keep (s_dtype (snd lc)))).
Qed.

(** ** The keys of a table of statistics *)

Lemma zip_columns_keys {K : Type} g (cs : list (K * list value)) : forall vs,
  map fst (zip_columns g cs vs) = map fst cs.
Proof.
  induction cs as [| [k cells] cs IH]; intro vs; simpl; [reflexivity|].
  now rewrite IH.
Qed.

Lemma set_row_keys {K : Type} (t : Table K) name row :
  keys (set_row t name row) = keys t.
Proof.
  unfold keys, set_row. destruct (index_of name (t_index t)); simpl;
    apply zip_columns_keys.
Qed.

Lemma set_row_f64_keys {K : Type} (t : Table K) name row :
  keys (set_row_f64 t name row) = keys t.
Proof. unfold set_row_f64. apply set_row_keys. Qed.

Lemma applymap_keys {K : Type} f (t : Table K) : keys (applymap f t) = keys t.
Proof. unfold keys, applymap. simpl. rewrite map_map. reflexivity. Qed.

Lemma with_header_keys h (t : Table label) :
  keys (with_header h t) = map (fun l => (h, l)) (keys t).
Proof. unfold keys, with_header. simpl. now rewrite !map_map. Qed.

Lemma reindex_keys {K : Type} idx (t : Table K) : map fst (reindex idx t) = keys t.
Proof. unfold keys, reindex. rewrite map_map. reflexivity. Qed.

Lemma concat_axis1_keys {K : Type} (a b : Table K) :
  keys (concat_axis1 a b) = keys a ++ keys b.
Proof.
  unfold concat_axis1. unfold keys at 1. simpl.
  now rewrite map_app, !reindex_keys.
Qed.

Section DescribeFacts.

Variable float_stat : string -> list Q -> value.

Lemma describe_numeric_keys df :
  keys (describe_numeric float_stat df) = df_columns df.
Proof. unfold keys, describe_numeric, df_columns. simpl. now rewrite map_map. Qed.

Lemma describe_all_keys df : keys (describe_all df) = df_columns df.
Proof. unfold keys, describe_all, df_columns. simpl. now rewrite map_map. Qed.

(** The rows of a summary that [descriptive_analysis] returns, when no two
    labels of the frame are equal: the numeric columns under
    ["Numeric Data"], then the others under ["Non-Numeric Data"], each in
    the order of the frame. *)
Lemma summary_rows_by_group df s :
  distinct_labels df ->
  descriptive_analysis float_stat df = Ok s ->
  map fst (summary_rows s) =
    map (fun lc => ("Numeric Data", fst lc)) (numeric_part df) ++
    map (fun lc => ("Non-Numeric Data", fst lc)) (non_numeric_part df).
Proof.
  intros ND H. unfold descriptive_analysis in H.
  repeat match type of H with
         | context [if ?b then _ else _] => destruct b; cbn [bind local] in H
         | context [frame_apply ?f ?d] =>
             destruct (frame_apply f d); cbn [bind local] in H
         end; try discriminate.
  cbn [bind local] in H. injection H as <-.
  unfold transpose. cbn [summary_rows].
  change (map fst (t_columns ?t)) with (keys t).
  rewrite concat_axis1_keys, !with_header_keys, !set_row_keys, !set_row_f64_keys,
    applymap_keys.
  rewrite describe_numeric_keys, describe_all_keys.
  unfold df_columns at 1 3. rewrite !(select_labels_distinct _ _ ND).
  unfold numeric_part, non_numeric_part. now rewrite !map_map.
Qed.

(** Each column of such a frame is then the key of exactly one row, under
    the label of its group. *)
Lemma summary_row_per_column df s :
  distinct_labels df ->
  descriptive_analysis float_stat df = Ok s ->
  Permutation (map fst (summary_rows s))
              (map (fun lc => (group_of (snd lc), fst lc)) (cols df)) /\
  NoDup (map fst (summary_rows s)).
Proof.
  intros ND H. rewrite (summary_rows_by_group _ _ ND H).
  assert (P : Permutation
                (map (fun lc => ("Numeric Data", fst lc)) (numeric_part df) ++
                 map (fun lc => ("Non-Numeric Data", fst lc)) (non_numeric_part df))
                (map (fun lc => (group_of (snd lc), fst lc)) (cols df))).
  { unfold numeric_part, non_numeric_part, group_of.
    induction (cols df) as [| [l c] cs IH]; simpl; [constructor|].
    destruct (is_number (s_dtype c)); simpl.
    - now constructor.
    - apply Permutation_sym. apply Permutation_cons_app. now apply Permutation_sym. }
  split; [exact P|].
  apply (Permutation_NoDup (Permutation_sym P)).
  unfold distinct_labels, df_columns in ND. clear - ND.
  induction (cols df) as [| [l c] cs IH]; simpl; [constructor|].
  inversion ND as [| ? ? Hn ND']; subst. constructor; [|now apply IH].
  intro Hin. apply Hn. apply in_map_iff in Hin.
  destruct Hin as ([l' c'] & E & Hin). simpl in E. injection E as _ ->.
  change l with (fst (l, c')). now apply in_map.
Qed.

(** [descriptive_analysis] returns a summary on a frame with distinct
    labels, a truthy label in each of the two groups, and a value in every
    non-numeric column that has a row. *)
Lemma descriptive_analysis_returns df :
  distinct_labels df ->
  index_any (df_columns (select_dtypes df is_number)) = true ->
  index_any (df_columns (select_dtypes df (fun d => negb (is_number d)))) = true ->
  (forall l c, In (l, c) (cols df) -> is_number (s_dtype c) = false ->
     s_values c = [] \/ s_values (dropna c) <> []) ->
  exists s, descriptive_analysis float_stat df = Ok s.
Proof.
  intros ND Hn Hnn Hv. unfold descriptive_analysis. rewrite Hn, Hnn.
  destruct (apply_columns_ok numeric_freq
              (cols (getitem_list df (df_columns (select_dtypes df is_number))))
              numeric_freq_ok) as [nf Enf].
  unfold frame_apply. rewrite Enf. cbn [bind].
  assert (exists nnf, apply_columns non_numeric_freq
            (cols (getitem_list df
               (df_columns (select_dtypes df (fun d => negb (is_number d)))))) = Ok nnf)
    as [nnf Ennf].
  { rewrite (select_labels_distinct _ _ ND).
    assert (Hsub : forall l c,
              In (l, c) (filter (fun lc => negb (is_number (s_dtype (snd lc)))) (cols df)) ->
              s_values c = [] \/ s_values (dropna c) <> []).
    { intros l c Hin. apply filter_In in Hin. destruct Hin as [Hin D].
      simpl in D. apply negb_true_iff in D. now apply (Hv l c). }
    revert Hsub. generalize (filter (fun lc => negb (is_number (s_dtype (snd lc)))) (cols df)).
    intros sub Hsub. induction sub as [| [l c] sub IH]; simpl; [eauto|].
    destruct IH as [vs IH]; [intros; eapply Hsub; right; eassumption|].
    rewrite IH. unfold non_numeric_freq, series_empty.
    destruct (s_values c) as [| v vs'] eqn:V; simpl; [eauto|].
    destruct (Hsub l c (or_introl eq_refl)) as [E | E]; [congruence|].
    unfold value_counts.
    destruct (sort_desc (tally (s_values (dropna c)))) as [| [w n] r] eqn:S.
    - exfalso. revert S. now apply sort_desc_nonempty, tally_nonempty.
    - simpl. eauto. }
  rewrite Ennf. cbn [bind local]. eauto.
Qed.

End DescribeFacts.

(** * The claims on descriptive_analysis *)

Section DescribeClaims.

Variable float_stat : string -> list Q -> value.

Lemma numeric_block_ok df :
  exists vs, frame_apply numeric_freq
               (getitem_list df (df_columns (select_dtypes df is_number))) = Ok vs.
Proof. unfold frame_apply. apply apply_columns_ok, numeric_freq_ok. Qed.

(** With no non-numeric column the numeric table is built, and reading
    [non_numeric_stats] then fails. *)
Lemma no_non_numeric_column_unbound df :
  df_columns (select_dtypes df (fun d => negb (is_number d))) = [] ->
  descriptive_analysis float_stat df = Raise UnboundLocalError.
Proof.
  intro E. unfold descriptive_analysis. rewrite E.
  destruct (numeric_block_ok df) as [vs ->].
  now destruct (index_any (df_columns (select_dtypes df is_number))).
Qed.

(** C1 fails on the code: when one of the two groups of columns is empty,
    and so when the frame has no column at all, [descriptive_analysis]
    raises instead of returning the table of the other group. *)
Theorem missing_group_raises (df : DataFrame) :
  df_columns (select_dtypes df is_number) = [] \/
  df_columns (select_dtypes df (fun d => negb (is_number d))) = [] ->
  raises (descriptive_analysis float_stat df).
Proof.
  intros [E | E].
  - unfold descriptive_analysis. rewrite E. cbn [index_any existsb bind].
    apply raises_bind_all. intros nns. now exists UnboundLocalError.
  - exists UnboundLocalError. now apply no_non_numeric_column_unbound.
Qed.


(** C7 fails on the code, by the defect of C1: the column [A] of a frame
    that has this numeric column only is a row of no summary, as
    [descriptive_analysis] raises on the frame. *)
Theorem numeric_only_frame_has_no_summary :
  In (LStr "A") (df_columns df_numeric_only) /\
  descriptive_analysis float_stat df_numeric_only = Raise UnboundLocalError /\
  ~ (exists s, descriptive_analysis float_stat df_numeric_only = Ok s).
Proof.
  assert (H : descriptive_analysis float_stat df_numeric_only = Raise UnboundLocalError)
    by (now apply no_non_numeric_column_unbound).
  split; [simpl; tauto|]. split; [exact H|].
  intros [s Hs]. rewrite H in Hs. discriminate.
Qed.

End DescribeClaims.

Lemma missing_group_raises_witness :
  raises (descriptive_analysis no_float_stat df_category) /\
  raises (descriptive_analysis no_float_stat df_numeric_only) /\
  raises (descriptive_analysis no_float_stat df_empty).
Proof.
  split; [|split]; apply missing_group_raises.
  - left. reflexivity.
  - right. reflexivity.
  - left. reflexivity.
Defined.


Example describe_scenario4 :
  descriptive_analysis no_float_stat df_category = Raise UnboundLocalError.
Proof. reflexivity. Qed.

Example describe_empty :
  descriptive_analysis no_float_stat df_empty = Raise UnboundLocalError.
Proof. reflexivity. Qed.

Example describe_tie :
  describe_categorical_1d (mkSeries Object [VStr "y"; VStr "x"; VStr "x"; VStr "y"]) =
  [VInt 4; VInt 2; VStr "y"; VInt 2].
Proof. reflexivity. Qed.

Example describe_mixed :
  descriptive_analysis no_float_stat df_mixed =
  Ok (mkSummary
        ["count"; "mean"; "std"; "min"; "25%"; "50%"; "75%"; "max";
         "missing"; "freq"; "unique"; "top"]
        [ (("Numeric Data", LStr "C"),
           [VFloat (300 # 100); VNaN; VNaN; VFloat (100 # 100); VNaN; VNaN; VNaN;
            VFloat (200 # 100); VFloat 1; VFloat 2; VNaN; VNaN]);
          (("Non-Numeric Data", LStr "Category"),
           [VInt 3; VNaN; VNaN; VNaN; VNaN; VNaN; VNaN; VNaN;
            VInt 1; VInt 2; VInt 2; VStr "x"]) ]).
Proof. reflexivity. Qed.

(** * Further properties of descriptive_analysis *)

Lemma non_numeric_freq_cases (c : Series) :
  if all_missing c then non_numeric_freq c = Raise IndexError
  else exists v, non_numeric_freq c = Ok v.
Proof.
  unfold all_missing, non_numeric_freq, series_empty.
  destruct (s_values c) as [| v vs] eqn:V; simpl; [eauto|].
  destruct (isnull v && forallb isnull vs) eqn:A.
  - rewrite value_counts_all_missing; [reflexivity|]. rewrite V.
    apply Forall_forall. intros x Hx.
    change (isnull v && forallb isnull vs) with (forallb isnull (v :: vs)) in A.
    rewrite forallb_forall in A. now apply A.
  - unfold value_counts.
    destruct (sort_desc (tally (s_values (dropna c)))) as [| [w n] r] eqn:S;
      [|simpl; eauto].
    exfalso. revert S. apply sort_desc_nonempty, tally_nonempty.
    unfold dropna. simpl. rewrite V. intro E.
    change (isnull v && forallb isnull vs) with (forallb isnull (v :: vs)) in A.
    assert (forallb isnull (v :: vs) = true); [|congruence].
    apply forallb_forall. intros x Hx. destruct (isnull x) eqn:N; [reflexivity|].
    assert (In x (filter (fun v => negb (isnull v)) (v :: vs)))
      by (apply filter_In; split; [exact Hx | now rewrite N]).
    rewrite E in H. contradiction.
Qed.

Lemma apply_non_numeric_freq_cases (cs : list (label * Series)) :
  if existsb (fun lc => all_missing (snd lc)) cs
  then apply_columns non_numeric_freq cs = Raise IndexError
  else exists vs, apply_columns non_numeric_freq cs = Ok vs.
Proof.
  induction cs as [| [l c] cs IH]; simpl; [eauto|].
  pose proof (non_numeric_freq_cases c) as F.
  destruct (all_missing c); simpl.
  - now rewrite F.
  - destruct F as [v ->]. simpl.
    destruct (existsb (fun lc => all_missing (snd lc)) cs).
    + now rewrite IH.
    + destruct IH as [vs ->]. simpl. eauto.
Qed.

Lemma existsb_filter {A : Type} (p g : A -> bool) (l : list A) :
  existsb g (filter p l) = existsb (fun x => p x && g x) l.
Proof.
  induction l as [| a l IH]; [reflexivity|]. simpl.
  destruct (p a); simpl; now rewrite IH.
Qed.

Section DescribeOutcome.

Variable float_stat : string -> list Q -> value.

(** On a frame with distinct labels the errors of [descriptive_analysis]
    are the [UnboundLocalError] of a table that was never assigned and the
    [IndexError] of [.iloc[0]] on an empty [value_counts()]; nothing else is
    raised. *)
Theorem descriptive_analysis_errors (df : DataFrame) (e : exn) :
  distinct_labels df ->
  descriptive_analysis float_stat df = Raise e ->
  e = UnboundLocalError \/ e = IndexError.
Proof.
  intros _. unfold descriptive_analysis. destruct (numeric_block_ok df) as [vs ->].
  set (sub := getitem_list df (df_columns (select_dtypes df (fun d => negb (is_number d))))).
  destruct (frame_apply non_numeric_freq sub) as [nnf | e'] eqn:F.
  - destruct (index_any (df_columns (select_dtypes df is_number)));
      destruct (index_any (df_columns (select_dtypes df (fun d => negb (is_number d)))));
      cbn [bind local]; intro H; try discriminate; injection H as <-; now left.
  - apply (apply_columns_error non_numeric_freq _ IndexError non_numeric_freq_error) in F.
    subst e'.
    destruct (index_any (df_columns (select_dtypes df is_number)));
      destruct (index_any (df_columns (select_dtypes df (fun d => negb (is_number d)))));
      cbn [bind local]; intro H; try discriminate; injection H as <-; tauto.
Qed.

(** What [descriptive_analysis] does on a frame with distinct labels, by the
    truthiness of the labels of the two groups and the presence of a
    non-numeric column that has a row and no value: [IndexError] when the
    non-numeric group counts and has such a column; otherwise
    [UnboundLocalError] unless both groups count; otherwise a summary. *)
Theorem descriptive_analysis_outcome (df : DataFrame) :
  distinct_labels df ->
  match index_any (non_numeric_labels df) && has_all_missing_column df,
        index_any (numeric_labels df) && index_any (non_numeric_labels df) with
  | true, _ => descriptive_analysis float_stat df = Raise IndexError
  | false, false => descriptive_analysis float_stat df = Raise UnboundLocalError
  | false, true => exists s, descriptive_analysis float_stat df = Ok s
  end.
Proof.
  intro ND. unfold descriptive_analysis, numeric_labels, non_numeric_labels.
  destruct (numeric_block_ok df) as [vs ->].
  unfold frame_apply.
  rewrite (select_labels_distinct df (fun d => negb (is_number d)) ND).
  pose proof (apply_non_numeric_freq_cases
                (filter (fun lc => negb (is_number (s_dtype (snd lc)))) (cols df))) as F.
  rewrite existsb_filter in F. fold (has_all_missing_column df) in F.
  destruct (has_all_missing_column df).
  - rewrite F.
    destruct (index_any (df_columns (select_dtypes df is_number)));
      destruct (index_any (df_columns (select_dtypes df (fun d => negb (is_number d)))));
      reflexivity.
  - destruct F as [nnf ->].
    destruct (index_any (df_columns (select_dtypes df is_number)));
      destruct (index_any (df_columns (select_dtypes df (fun d => negb (is_number d)))));
      cbn [bind local andb]; eauto.
Qed.

(** A group whose labels are all [0] or [""] counts as absent, since
    [.any()] looks at the labels: [descriptive_analysis] raises although the
    frame has columns of both kinds. *)
Theorem falsy_labels_raise (df : DataFrame) :
  Forall (fun l => l = LInt 0 \/ l = LStr "") (numeric_labels df) \/
  Forall (fun l => l = LInt 0 \/ l = LStr "") (non_numeric_labels df) ->
  raises (descriptive_analysis float_stat df).
Proof.
  assert (A : forall ls, Forall (fun l => l = LInt 0 \/ l = LStr "") ls ->
                         index_any ls = false).
  { intros ls H. induction H as [| l ls [-> | ->] _ IH]; simpl; auto. }
  unfold numeric_labels, non_numeric_labels, descriptive_analysis.
  intros [H | H]; apply A in H; rewrite H.
  - cbn [bind]. apply raises_bind_all. intro nns. now exists UnboundLocalError.
  - destruct (numeric_block_ok df) as [vs ->].
    destruct (index_any (df_columns (select_dtypes df is_number)));
      now exists UnboundLocalError.
Qed.

End DescribeOutcome.

Lemma descriptive_analysis_errors_witness :
  IndexError = UnboundLocalError \/ IndexError = IndexError.
Proof.
  apply (descriptive_analysis_errors no_float_stat df_none_column IndexError).
  - unfold distinct_labels. simpl. repeat constructor; simpl; intuition discriminate.
  - reflexivity.
Defined.

Lemma descriptive_analysis_outcome_witness :
  (exists s, descriptive_analysis no_float_stat df_mixed = Ok s) /\
  descriptive_analysis no_float_stat df_none_column = Raise IndexError /\
  descriptive_analysis no_float_stat df_falsy_label = Raise UnboundLocalError.
Proof.
  split; [|split].
  - apply (descriptive_analysis_outcome no_float_stat df_mixed).
    unfold distinct_labels. simpl. repeat constructor; simpl; intuition discriminate.
  - apply (descriptive_analysis_outcome no_float_stat df_none_column).
    unfold distinct_labels. simpl. repeat constructor; simpl; intuition discriminate.
  - apply (descriptive_analysis_outcome no_float_stat df_falsy_label).
    unfold distinct_labels. simpl. repeat constructor; simpl; intuition discriminate.
Defined.

Lemma falsy_labels_raise_witness :
  raises (descriptive_analysis no_float_stat df_falsy_label).
Proof.
  apply falsy_labels_raise. left. simpl. constructor; [now left | constructor].
Defined.

(** ** The content of a summary *)

Lemma apply_columns_map f cs vs :
  apply_columns f cs = Ok vs ->
  vs = map (fun lc => returned (f (snd lc))) cs.
Proof.
  revert vs. induction cs as [| [l c] cs IH]; simpl; intros vs H.
  - now injection H as <-.
  - destruct (f c) as [v | e]; [|discriminate]. simpl in H.
    destruct (apply_columns f cs) as [ws | e]; [|discriminate]. simpl in H.
    injection H as <-. simpl. f_equal. now apply IH.
Qed.

Lemma zip_columns_map {X K : Type} (g : list value -> value -> list value)
    (k : X -> K) (cells : X -> list value) (v : X -> value) (xs : list X) :
  zip_columns g (map (fun x => (k x, cells x)) xs) (map v xs) =
  map (fun x => (k x, g (cells x) (v x))) xs.
Proof. induction xs as [| x xs IH]; simpl; [reflexivity | now rewrite IH]. Qed.

Lemma numeric_table_index fs sub freq :
  t_index (numeric_table fs sub freq) =
  ["count"; "mean"; "std"; "min"; "25%"; "50%"; "75%"; "max"; "missing"; "freq"].
Proof. reflexivity. Qed.

Lemma non_numeric_table_index sub freq :
  t_index (non_numeric_table sub freq) =
  ["count"; "unique"; "top"; "freq"; "missing"].
Proof. reflexivity. Qed.

Lemma numeric_table_columns fs sub :
  t_columns (numeric_table fs sub
               (map (fun lc => returned (numeric_freq (snd lc))) (cols sub))) =
  map (fun lc =>
         (("Numeric Data", fst lc),
          (map format_number (describe_numeric_1d fs (snd lc)) ++
           [to_float64 (format_number (VInt (Z.of_nat (isnull_sum (snd lc)))))]) ++
          [to_float64 (format_number (returned (numeric_freq (snd lc))))]))
      (cols sub).
Proof.
  unfold numeric_table, with_header, set_row_f64, set_row, applymap, describe_numeric,
    frame_isnull_sum.
  cbn [t_index t_columns index_of String.eqb Ascii.eqb Bool.eqb app].
  rewrite !map_map. cbn [fst snd].
  rewrite (zip_columns_map (fun cells v => cells ++ [v])
             (fun lc : label * Series => fst lc)
             (fun lc => map format_number (describe_numeric_1d fs (snd lc)))
             (fun lc => to_float64
                          (format_number (VInt (Z.of_nat (isnull_sum (snd lc))))))).
  rewrite (zip_columns_map (fun cells v => cells ++ [v])
             (fun lc : label * Series => fst lc)
             (fun lc => map format_number (describe_numeric_1d fs (snd lc)) ++
                        [to_float64
                           (format_number (VInt (Z.of_nat (isnull_sum (snd lc)))))])
             (fun lc => to_float64 (format_number (returned (numeric_freq (snd lc)))))).
  now rewrite map_map.
Qed.


Lemma numeric_cells_reindex (d : list value) (m fr : value) :
  List.length d = 8 ->
  map (cell_at ["count"; "mean"; "std"; "min"; "25%"; "50%"; "75%"; "max";
                "missing"; "freq"] ((d ++ [m]) ++ [fr])) summary_names =
  d ++ [m; fr; VNaN; VNaN].
Proof.
  intro H. do 8 (destruct d as [| ? d]; [discriminate H|]).
  destruct d; [reflexivity | discriminate H].
Qed.


Lemma non_numeric_freq_describe (c : Series) (v : value) :
  non_numeric_freq c = Ok v ->
  nth 3 (describe_categorical_1d c) VNaN = v.
Proof.
  unfold non_numeric_freq, describe_categorical_1d, series_empty.
  destruct (s_values c) as [| x xs] eqn:V; simpl.
  - intro H. injection H as <-. unfold value_counts, dropna. now rewrite V.
  - destruct (value_counts c) as [| [w n] r]; simpl; intro H; [discriminate|].
    now injection H as <-.
Qed.

(** The lambda of the non-numeric block recomputes what [describe] put in
    the [freq] row: when it returns, its value is the cell already there, so
    the assignment to [.loc['freq']] leaves the table as it was. *)
Theorem non_numeric_freq_redundant (sub : DataFrame) (freq : list value) :
  frame_apply non_numeric_freq sub = Ok freq ->
  set_row (set_row (describe_all sub) "missing" (frame_isnull_sum sub)) "freq" freq =
  set_row (describe_all sub) "missing" (frame_isnull_sum sub).
Proof.
  intro H. apply apply_columns_map in H. subst freq.
  unfold set_row, describe_all, frame_isnull_sum.
  cbn [t_index t_columns index_of String.eqb Ascii.eqb Bool.eqb app].
  rewrite (zip_columns_map (fun cells v => cells ++ [v])
             (fun lc : label * Series => fst lc)
             (fun lc => describe_categorical_1d (snd lc))
             (fun lc => VInt (Z.of_nat (isnull_sum (snd lc))))).
  rewrite (zip_columns_map (fun cells v => replace_nth 3 v cells)
             (fun lc : label * Series => fst lc)
             (fun lc => describe_categorical_1d (snd lc) ++
                        [VInt (Z.of_nat (isnull_sum (snd lc)))])
             (fun lc => returned (non_numeric_freq (snd lc)))).
  f_equal. apply map_ext. intros [l c]. cbn [fst snd]. f_equal.
  destruct (non_numeric_freq c) as [v | e] eqn:E; cbn [returned].
  - apply non_numeric_freq_describe in E. subst v. reflexivity.
  - unfold non_numeric_freq in E.
    destruct (negb (series_empty c)); [|discriminate].
    unfold describe_categorical_1d.
    destruct (value_counts c) as [| [w n] r]; [reflexivity | discriminate].
Qed.

Lemma non_numeric_freq_redundant_witness :
  set_row (set_row (describe_all df_category) "missing" (frame_isnull_sum df_category))
          "freq" [VInt 2] =
  set_row (describe_all df_category) "missing" (frame_isnull_sum df_category).
Proof.
  apply non_numeric_freq_redundant. reflexivity.
Defined.

Section SummaryContent.

Variable float_stat : string -> list Q -> value.

Lemma descriptive_analysis_ok_inv df s :
  descriptive_analysis float_stat df = Ok s ->
  exists nf nnf,
    frame_apply numeric_freq (getitem_list df (numeric_labels df)) = Ok nf /\
    frame_apply non_numeric_freq (getitem_list df (non_numeric_labels df)) = Ok nnf /\
    s = transpose
          (concat_axis1
             (numeric_table float_stat (getitem_list df (numeric_labels df)) nf)
             (non_numeric_table (getitem_list df (non_numeric_labels df)) nnf)).
Proof.
  unfold descriptive_analysis, numeric_labels, non_numeric_labels. intro H.
  destruct (index_any (df_columns (select_dtypes df is_number)));
    [|destruct (index_any _); [destruct (frame_apply non_numeric_freq _)|];
      cbn [bind local] in H; discriminate].
  destruct (frame_apply numeric_freq _) as [nf | e]; [|discriminate].
  cbn [bind] in H.
  destruct (index_any (df_columns (select_dtypes df (fun d => negb (is_number d)))));
    [|discriminate].
  destruct (frame_apply non_numeric_freq _) as [nnf | e]; [|discriminate].
  cbn [bind local] in H. injection H as <-. now exists nf, nnf.
Qed.

(** A summary that [descriptive_analysis] returns always has the same twelve
    columns, in the same order, and every row has one cell for each. *)
Theorem summary_shape (df : DataFrame) (s : Summary) :
  descriptive_analysis float_stat df = Ok s ->
  summary_columns s = summary_names /\
  Forall (fun row => List.length (snd row) = 12) (summary_rows s).
Proof.
  intro H. destruct (descriptive_analysis_ok_inv _ _ H) as (nf & nnf & _ & _ & ->).
  unfold transpose, concat_axis1. cbn [summary_columns summary_rows].
  rewrite numeric_table_index, non_numeric_table_index.
  split; [reflexivity|].
  apply Forall_forall. intros row Hr. apply in_app_or in Hr.
  unfold reindex in Hr.
  destruct Hr as [Hr | Hr]; apply in_map_iff in Hr; destruct Hr as (kc & <- & _);
    cbn [snd]; now rewrite length_map.
Qed.

(** The row of a numeric column in the summary of a frame with distinct
    labels: the eight statistics of [describe], formatted; the number of
    missing cells and the value of the [freq] lambda, both as floats, since
    they are assigned into a [float64] table; and [nan] under [unique] and
    [top], which only the other group has. *)
Theorem numeric_row_cells (df : DataFrame) (s : Summary) (l : label) (c : Series) :
  distinct_labels df ->
  descriptive_analysis float_stat df = Ok s ->
  In (l, c) (cols df) ->
  is_number (s_dtype c) = true ->
  exists freq,
    numeric_freq c = Ok freq /\
    In (("Numeric Data", l),
        map format_number (describe_numeric_1d float_stat c) ++
        [VFloat (inject_Z (Z.of_nat (isnull_sum c))); to_float64 freq; VNaN; VNaN])
       (summary_rows s).
Proof.
  intros ND H Hin Hd.
  destruct (descriptive_analysis_ok_inv _ _ H) as (nf & nnf & Hnf & _ & ->).
  destruct (numeric_freq_ok c) as [freq Hf]. exists freq. split; [exact Hf|].
  apply apply_columns_map in Hnf. subst nf.
  unfold transpose, concat_axis1. cbn [summary_rows].
  rewrite numeric_table_index, non_numeric_table_index.
  apply in_or_app. left. unfold reindex.
  rewrite numeric_table_index, numeric_table_columns.
  unfold numeric_labels. rewrite (select_labels_distinct _ _ ND).
  rewrite map_map. apply in_map_iff. exists (l, c). split.
  - cbn [fst snd]. f_equal.
    change (index_union _ _) with summary_names.
    rewrite numeric_cells_reindex by reflexivity.
    rewrite Hf. cbn [returned]. do 4 f_equal.
    unfold numeric_freq in Hf.
    destruct (negb (series_empty (dropna c))); [|now injection Hf as <-].
    destruct (iloc0 _); [|discriminate]. now injection Hf as <-.
  - apply filter_In. split; [exact Hin | exact Hd].
Qed.


End SummaryContent.

Lemma summary_shape_witness :
  summary_columns summary_mixed = summary_names /\
  Forall (fun row => List.length (snd row) = 12) (summary_rows summary_mixed).
Proof.
  apply (summary_shape no_float_stat df_mixed). reflexivity.
Defined.

Lemma numeric_row_cells_witness :
  exists freq,
    numeric_freq (mkSeries Float64 [VFloat (1005 # 1000); VFloat 2; VNaN; VFloat 2])
      = Ok freq /\
    In (("Numeric Data", LStr "C"),
        map format_number
          (describe_numeric_1d no_float_stat
             (mkSeries Float64 [VFloat (1005 # 1000); VFloat 2; VNaN; VFloat 2])) ++
        [VFloat (inject_Z (Z.of_nat (isnull_sum
           (mkSeries Float64 [VFloat (1005 # 1000); VFloat 2; VNaN; VFloat 2]))));
         to_float64 freq; VNaN; VNaN])
       (summary_rows summary_mixed).
Proof.
  apply (numeric_row_cells no_float_stat df_mixed).
  - unfold distinct_labels. simpl. repeat constructor; simpl; intuition discriminate.
  - reflexivity.
  - simpl. tauto.
  - reflexivity.
Defined.


(** ** The meaning of [freq] *)

Lemma value_eqb_sym (a b : value) : value_eqb a b = value_eqb b a.
Proof.
  unfold value_eqb.
  destruct (as_number a) as [x |] eqn:A, (as_number b) as [y |] eqn:B; try reflexivity.
  - destruct (Qeq_bool x y) eqn:E, (Qeq_bool y x) eqn:E'; try reflexivity.
    + apply Qeq_bool_iff in E. symmetry in E. apply Qeq_bool_iff in E. congruence.
    + apply Qeq_bool_iff in E'. symmetry in E'. apply Qeq_bool_iff in E'. congruence.
  - destruct a, b; try reflexivity. apply String.eqb_sym.
Qed.

Lemma value_eqb_trans (a b c : value) :
  value_eqb a b = true -> value_eqb b c = true -> value_eqb a c = true.
Proof.
  unfold value_eqb.
  destruct (as_number a) as [x |] eqn:A, (as_number b) as [y |] eqn:B,
           (as_number c) as [z |] eqn:C; try discriminate.
  - intros H1 H2. apply Qeq_bool_iff in H1, H2. apply Qeq_bool_iff.
    now rewrite H1.
  - destruct a, b; try discriminate. intros H1. apply String.eqb_eq in H1.
    now subst.
Qed.

Lemma value_eqb_refl (a : value) : isnull a = false -> value_eqb a a = true.
Proof.
  destruct a; try discriminate; intros _; unfold value_eqb; simpl.
  - apply Qeq_bool_iff. reflexivity.
  - apply Qeq_bool_iff. reflexivity.
  - apply Qeq_bool_iff. reflexivity.
  - apply String.eqb_refl.
Qed.

Lemma value_eqb_congr (a b x : value) :
  value_eqb a b = true -> value_eqb a x = value_eqb b x.
Proof.
  intro H. destruct (value_eqb a x) eqn:A, (value_eqb b x) eqn:B; try reflexivity.
  - rewrite value_eqb_sym in H. rewrite (value_eqb_trans _ _ _ H A) in B. discriminate.
  - rewrite (value_eqb_trans _ _ _ H B) in A. discriminate.
Qed.

Lemma occurrences_app v xs ys :
  occurrences v (xs ++ ys) = occurrences v xs + occurrences v ys.
Proof. unfold occurrences. now rewrite filter_app, length_app. Qed.

Lemma occurrences_zero v xs :
  (forall x, In x xs -> value_eqb v x = false) -> occurrences v xs = 0.
Proof.
  unfold occurrences. induction xs as [| x xs IH]; intro H; [reflexivity|].
  simpl. rewrite (H x (or_introl eq_refl)). apply IH. intros y Hy. apply H. now right.
Qed.

Lemma tally_add_In v t :
  apart (map fst t) ->
  forall w n,
    In (w, n) (tally_add v t) <->
    (In (w, n) t /\ value_eqb w v = false) \/
    (exists m, In (w, m) t /\ value_eqb w v = true /\ n = S m) \/
    (w = v /\ n = 1 /\ forall k m, In (k, m) t -> value_eqb k v = false).
Proof.
  induction t as [| [k m] t IH]; simpl; intros A w n.
  - split.
    + intros [H | []]. injection H as <- <-. right. right. repeat split. intros ? ? [].
    + intros [[[] _] | [(? & [] & _) | (-> & -> & _)]]. now left.
  - destruct A as [Ak A].
    assert (Ak' : forall x y, In (x, y) t -> value_eqb k x = false).
    { intros x y Hx. apply Ak. change x with (fst (x, y)). now apply in_map. }
    destruct (value_eqb k v) eqn:E.
    + assert (N : forall x y, In (x, y) t -> value_eqb x v = false).
      { intros x y Hx. destruct (value_eqb x v) eqn:X; [|reflexivity].
        rewrite value_eqb_sym in X. pose proof (Ak' x y Hx) as C.
        rewrite (value_eqb_trans _ _ _ E X) in C. discriminate. }
      simpl. split.
      * intros [H | H].
        -- injection H as <- <-. right. left. exists m. auto.
        -- left. split; [now right | now apply (N w n)].
      * intros [[[H | H] F] | [(m' & [H | H] & T & ->) | (-> & -> & F)]].
        -- injection H as <- <-. congruence.
        -- now right.
        -- injection H as <- <-. now left.
        -- rewrite (N _ _ H) in T. discriminate.
        -- rewrite (F k m (or_introl eq_refl)) in E. discriminate.
    + simpl. rewrite (IH A w n). split.
      * intros [H | [[H F] | [(m' & H & T & ->) | (-> & -> & F)]]].
        -- injection H as <- <-. left. auto.
        -- left. auto.
        -- right. left. exists m'. auto.
        -- right. right. repeat split. intros x y [H | H]; [|now apply (F x y)].
           now injection H as <- <-.
      * intros [[[H | H] F] | [(m' & [H | H] & T & ->) | (-> & -> & F)]].
        -- now left.
        -- right. left. auto.
        -- injection H as <- <-. congruence.
        -- right. right. left. exists m'. auto.
        -- right. right. right. repeat split. intros x y Hx. apply (F x y). now right.
Qed.

Lemma tally_add_apart v t :
  apart (map fst t) -> apart (map fst (tally_add v t)).
Proof.
  induction t as [| [k m] t IH]; simpl; intro A; [split; [intros ? [] | exact I]|].
  destruct A as [Ak A]. destruct (value_eqb k v) eqn:E; simpl.
  - now split.
  - split; [|now apply IH]. intros w Hw. apply in_map_iff in Hw.
    destruct Hw as ([x y] & <- & Hx). simpl.
    apply (tally_add_In v t A) in Hx.
    destruct Hx as [[Hx _] | [(m' & Hx & _) | (-> & _)]].
    + apply Ak. change x with (fst (x, y)). now apply in_map.
    + apply Ak. change x with (fst (x, m')). now apply in_map.
    + exact E.
Qed.

Lemma tally_add_invariant vs t v :
  isnull v = false -> tally_of vs t -> tally_of (vs ++ [v]) (tally_add v t).
Proof.
  intros Hv (I1 & I2 & I3). split; [|split].
  - intros w n H. apply (tally_add_In v t I3) in H.
    rewrite occurrences_app. unfold occurrences at 2. simpl.
    destruct H as [[H F] | [(m & H & T & ->) | (-> & -> & F)]].
    + destruct (I1 _ _ H) as [Hin ->]. rewrite F. simpl.
      split; [apply in_or_app; now left | lia].
    + destruct (I1 _ _ H) as [Hin ->]. rewrite T. simpl.
      split; [apply in_or_app; now left | lia].
    + rewrite (value_eqb_refl v Hv). simpl. split; [apply in_or_app; right; now left|].
      rewrite occurrences_zero; [reflexivity|].
      intros x Hx. destruct (value_eqb v x) eqn:X; [|reflexivity].
      destruct (I2 x Hx) as (k & m & Hk & K).
      rewrite value_eqb_sym in X. pose proof (F k m Hk) as C.
      rewrite (value_eqb_trans _ _ _ K X) in C. discriminate.
  - intros x Hx. apply in_app_or in Hx. destruct Hx as [Hx | [<- | []]].
    + destruct (I2 x Hx) as (k & m & Hk & K).
      destruct (value_eqb k v) eqn:E.
      * exists k, (S m). split; [|exact K]. apply (tally_add_In v t I3).
        right. left. exists m. auto.
      * exists k, m. split; [|exact K]. apply (tally_add_In v t I3). now left.
    + destruct (existsb (fun km => value_eqb (fst km) v) t) eqn:X.
      * apply existsb_exists in X. destruct X as ([k m] & Hk & K). simpl in K.
        exists k, (S m). split; [|exact K]. apply (tally_add_In v t I3).
        right. left. exists m. auto.
      * exists v, 1. split; [|now apply value_eqb_refl].
        apply (tally_add_In v t I3). right. right. repeat split.
        intros k m Hk. destruct (value_eqb k v) eqn:K; [|reflexivity].
        assert (existsb (fun km => value_eqb (fst km) v) t = true); [|congruence].
        apply existsb_exists. exists (k, m). auto.
  - now apply tally_add_apart.
Qed.

Lemma tally_invariant vs :
  Forall (fun v => isnull v = false) vs -> tally_of vs (tally vs).
Proof.
  unfold tally. intro H.
  assert (G : forall vs2 vs1 t,
             Forall (fun v => isnull v = false) vs2 -> tally_of vs1 t ->
             tally_of (vs1 ++ vs2) (fold_left (fun t v => tally_add v t) vs2 t)).
  { induction vs2 as [| v vs2 IH]; intros vs1 t F T; simpl.
    - now rewrite app_nil_r.
    - inversion F as [| ? ? Hv F']; subst.
      change (v :: vs2) with ([v] ++ vs2). rewrite app_assoc.
      apply IH; [exact F' | now apply tally_add_invariant]. }
  apply (G vs [] [] H). split; [|split]; simpl; tauto.
Qed.

Lemma insert_desc_In x l y : In y (insert_desc x l) <-> y = x \/ In y l.
Proof.
  induction l as [| z l IH]; simpl; [intuition|].
  destruct (snd z <=? snd x)%nat; simpl; [intuition|]. rewrite IH. intuition.
Qed.

Lemma sort_desc_In l y : In y (sort_desc l) <-> In y l.
Proof.
  induction l as [| x l IH]; simpl; [tauto|].
  rewrite insert_desc_In, IH. intuition.
Qed.

Lemma insert_desc_head x l :
  head_is_largest l -> head_is_largest (insert_desc x l).
Proof.
  destruct l as [| y l]; simpl; intro H.
  - intros z [<- | []]. lia.
  - destruct (snd y <=? snd x)%nat eqn:E.
    + apply Nat.leb_le in E. intros z [<- | Hz]; [lia|].
      specialize (H z Hz). lia.
    + apply Nat.leb_gt in E. intros z [<- | Hz]; [lia|].
      apply insert_desc_In in Hz. destruct Hz as [-> | Hz]; [lia|].
      apply H. now right.
Qed.

Lemma sort_desc_head l : head_is_largest (sort_desc l).
Proof.
  induction l as [| x l IH]; simpl; [exact I | now apply insert_desc_head].
Qed.

(** [value_counts().iloc[0]], the [freq] of both lambdas, is the largest
    number of occurrences of a value among the non-missing cells of the
    column: some value occurs that often and none occurs more often. *)
Theorem freq_is_largest_count (c : Series) (n : nat) :
  iloc0 (value_counts c) = Ok n ->
  (exists v, In v (s_values (dropna c)) /\
             occurrences v (s_values (dropna c)) = n) /\
  (forall v, In v (s_values (dropna c)) ->
             occurrences v (s_values (dropna c)) <= n).
Proof.
  unfold value_counts. set (vs := s_values (dropna c)). intro H.
  assert (F : Forall (fun v => isnull v = false) vs).
  { unfold vs, dropna. simpl. apply Forall_forall. intros v Hv.
    apply filter_In in Hv. now apply negb_true_iff. }
  destruct (tally_invariant vs F) as (I1 & I2 & _).
  pose proof (sort_desc_head (tally vs)) as HL.
  destruct (sort_desc (tally vs)) as [| [w m] r] eqn:S; [discriminate|].
  simpl in H. injection H as ->.
  assert (Hw : In (w, n) (tally vs)) by (apply sort_desc_In; rewrite S; now left).
  split.
  - exists w. destruct (I1 _ _ Hw) as [Hin ->]. auto.
  - intros v Hv. destruct (I2 v Hv) as (k & p & Hk & K).
    assert (E : occurrences v vs = occurrences k vs).
    { unfold occurrences. f_equal. apply filter_ext. intro x.
      symmetry. now apply value_eqb_congr. }
    rewrite E. destruct (I1 _ _ Hk) as [_ <-].
    apply (HL (k, p)). apply sort_desc_In in Hk. now rewrite S in Hk.
Qed.

Lemma freq_is_largest_count_witness :
  (exists v, In v [VStr "x"; VStr "x"; VStr "y"] /\
             occurrences v [VStr "x"; VStr "x"; VStr "y"] = 2) /\
  (forall v, In v [VStr "x"; VStr "x"; VStr "y"] ->
             occurrences v [VStr "x"; VStr "x"; VStr "y"] <= 2).
Proof.
  apply (freq_is_largest_count (mkSeries Object [VStr "x"; VStr "x"; VStr "y"; VNone]) 2).
  reflexivity.
Defined.

(** ** The rows of a summary *)

Lemma summary_row_per_column_witness :
  Permutation (map fst (summary_rows summary_mixed))
              (map (fun lc => (group_of (snd lc), fst lc)) (cols df_mixed)) /\
  NoDup (map fst (summary_rows summary_mixed)).
Proof.
  apply (summary_row_per_column no_float_stat df_mixed).
  - unfold distinct_labels. simpl. repeat constructor; simpl; intuition discriminate.
  - reflexivity.
Defined.

(** The rows of a summary come group by group: first the numeric columns,
    then the others, each group in the order of the frame and every row
    under the label of its group. *)
Theorem summary_rows_order (float_stat : string -> list Q -> value)
    (df : DataFrame) (s : Summary) :
  distinct_labels df ->
  descriptive_analysis float_stat df = Ok s ->
  map fst (summary_rows s) =
  map (fun lc => (group_of (snd lc), fst lc)) (numeric_part df ++ non_numeric_part df).
Proof.
  intros ND H. rewrite (summary_rows_by_group float_stat df s ND H), map_app.
  unfold numeric_part, non_numeric_part, group_of. f_equal; apply map_ext_in.
  - intros lc Hin. apply filter_In in Hin. destruct Hin as [_ D]. now rewrite D.
  - intros lc Hin. apply filter_In in Hin. destruct Hin as [_ D].
    apply negb_true_iff in D. now rewrite D.
Qed.

Lemma summary_rows_order_witness :
  map fst (summary_rows summary_mixed) =
  [("Numeric Data", LStr "C"); ("Non-Numeric Data", LStr "Category")].
Proof.
  apply (summary_rows_order no_float_stat df_mixed summary_mixed).
  - unfold distinct_labels. simpl. repeat constructor; simpl; intuition discriminate.
  - reflexivity.
Defined.

(** * Further properties of filter_cols *)

(** [filter_cols] returns exactly on the frames whose column labels are
    strings, no two of them equal. *)
Theorem filter_cols_returns_iff (df : DataFrame) (t : Q) :
  (exists out, filter_cols df t = Ok out) <-> str_labels df /\ distinct_labels df.
Proof.
  split.
  - intros [out H]. now apply (filter_cols_ok_inv df t out).
  - intros [Hs ND]. eexists. now apply filter_cols_accepts.
Qed.

Lemma filter_step_error df tc l d e :
  In l (df_columns df) ->
  filter_step df tc l d = Raise e ->
  e = ValueError \/ (e = AttributeError /\ is_str l = false).
Proof.
  intros Hin. unfold filter_step, getitem.
  change (filter _ (cols df)) with (carrying (cols df) l).
  pose proof (carrying_in (cols df) l Hin) as Hne.
  destruct (carrying (cols df) l) as [| [k c] [| y r]]; [contradiction | |].
  - simpl. destruct l as [s | z]; simpl.
    + destruct (gt_count (isnull_sum c) tc), (startswith (lower s) "unnamed");
        discriminate.
    + intro H. injection H as <-. now right.
  - simpl. intro H. injection H as <-. now left.
Qed.

Lemma filter_loop_error df tc ls : forall d e,
  (forall l, In l ls -> In l (df_columns df)) ->
  filter_loop df tc ls d = Raise e ->
  e = ValueError \/ (e = AttributeError /\ exists l, In l ls /\ is_str l = false).
Proof.
  induction ls as [| k ls IH]; intros d e Hsub H; [discriminate|].
  simpl in H. destruct (filter_step df tc k d) as [d1 | e1] eqn:S; simpl in H.
  - destruct (IH d1 e (fun l Hl => Hsub l (or_intror Hl)) H) as [-> | [-> (l & Hl & N)]];
      [now left | right]. split; [reflexivity|]. exists l. split; [now right | exact N].
  - injection H as <-.
    destruct (filter_step_error df tc k d e1 (Hsub k (or_introl eq_refl)) S)
      as [-> | [-> N]]; [now left | right].
    split; [reflexivity|]. exists k. split; [now left | exact N].
Qed.



(** A frame whose labels are all strings, one of them repeated, makes
    [filter_cols] raise [ValueError]. *)
Theorem repeated_string_label_raises (df : DataFrame) (t : Q) :
  str_labels df -> ~ distinct_labels df ->
  filter_cols df t = Raise ValueError.
Proof.
  intros Hs ND. destruct (filter_cols df t) as [out | e] eqn:H.
  - apply filter_cols_ok_inv in H. tauto.
  - unfold filter_cols in H.
    destruct (filter_loop df (threshold_count t df) (df_columns df) []) as [d | e1] eqn:L.
    + exfalso. apply ND. apply carrying_single_NoDup. intros l Hl.
      destruct (filter_loop_ok_inv _ _ _ _ _ L l Hl) as [_ [c G]].
      apply getitem_series_inv in G. destruct G as [k G]. now exists (k, c).
    + simpl in H. injection H as <-. f_equal.
      destruct (filter_loop_error _ _ _ _ _ (fun l Hl => Hl) L) as [-> | [_ (l & Hl & S)]];
        [reflexivity|].
      unfold str_labels in Hs. rewrite Forall_forall in Hs.
      rewrite (Hs l Hl) in S. discriminate.
Qed.

Lemma repeated_string_label_raises_witness :
  filter_cols df_repeated_label default_threshold = Raise ValueError.
Proof.
  apply repeated_string_label_raises.
  - unfold str_labels. simpl. repeat constructor.
  - unfold distinct_labels. simpl. intro ND.
    inversion ND as [| ? ? Hn _]. apply Hn. now left.
Defined.

Lemma threshold_count_monotone df (t1 t2 : Q) :
  (t1 <= t2)%Q -> (threshold_count t1 df <= threshold_count t2 df)%Q.
Proof.
  intro H. unfold threshold_count. apply Qmult_le_compat_r; [exact H|].
  change 0%Q with (inject_Z 0). rewrite <- Zle_Qle. apply Nat2Z.is_nonneg.
Qed.

Lemma flagged_monotone (tc1 tc2 : Q) lc :
  (tc1 <= tc2)%Q -> flagged tc1 lc = false -> flagged tc2 lc = false.
Proof.
  intros H. unfold flagged, flag_reason. destruct (fst lc) as [s | z]; [|reflexivity].
  destruct (gt_count (isnull_sum (snd lc)) tc1) eqn:G1.
  - destruct (startswith (lower s) "unnamed"); discriminate.
  - assert (gt_count (isnull_sum (snd lc)) tc2 = false) as ->.
    { apply gt_count_le. apply gt_count_le in G1. eapply Qle_trans; eassumption. }
    trivial.
Qed.

(** Raising the threshold never removes more: a column kept under [t1] is
    kept under every [t2 >= t1], and a column reported under [t2] is reported
    under [t1]. *)
Theorem filter_cols_threshold_monotone (df : DataFrame) (t1 t2 : Q)
    (d1 d2 : DataFrame) (r1 r2 : Report) :
  (t1 <= t2)%Q ->
  filter_cols df t1 = Ok (d1, r1) ->
  filter_cols df t2 = Ok (d2, r2) ->
  (forall lc, In lc (cols d1) -> In lc (cols d2)) /\
  (forall l, In l (report_Column r2) -> In l (report_Column r1)).
Proof.
  intros Ht H1 H2. pose proof (threshold_count_monotone df _ _ Ht) as M. split.
  - intros lc K. apply (kept_iff _ _ _ _ _ H1) in K. apply (kept_iff _ _ _ _ _ H2).
    destruct K as [Hin F]. split; [exact Hin|]. eapply flagged_monotone; eassumption.
  - destruct (filter_cols_ok _ _ _ _ H1) as (_ & _ & _ & ->).
    destruct (filter_cols_ok _ _ _ _ H2) as (_ & _ & _ & ->).
    simpl. rewrite !flagged_rows_keys. intros l Hl.
    apply in_map_iff in Hl. destruct Hl as (lc & <- & Hl).
    apply filter_In in Hl. destruct Hl as [Hin F]. apply in_map.
    apply filter_In. split; [exact Hin|].
    destruct (flagged (threshold_count t1 df) lc) eqn:F1; [reflexivity|].
    rewrite (flagged_monotone _ _ lc M F1) in F. discriminate.
Qed.

Lemma filter_cols_threshold_monotone_witness :
  (forall lc, In lc (cols (mkDataFrame 3 [ (LStr "kept", floats_missing 1 2) ])) ->
              In lc (cols (mkDataFrame 3 [ (LStr "empty", floats_missing 3 0);
                                           (LStr "kept", floats_missing 1 2) ]))) /\
  (forall l, In l [LStr "UNNAMED: 1"] -> In l [LStr "empty"; LStr "UNNAMED: 1"]).
Proof.
  apply (filter_cols_threshold_monotone df_all_missing (1 # 2)%Q 1%Q
           (mkDataFrame 3 [ (LStr "kept", floats_missing 1 2) ])
           (mkDataFrame 3 [ (LStr "empty", floats_missing 3 0);
                            (LStr "kept", floats_missing 1 2) ])
           (mkReport ["Column"; "Reason"] [LStr "empty"; LStr "UNNAMED: 1"]
              ["Excessive Missing Values";
               "Excessive Missing Values, Unnamed Column"])
           (mkReport ["Column"; "Reason"] [LStr "UNNAMED: 1"] ["Unnamed Column"])).
  - discriminate.
  - reflexivity.
  - reflexivity.
Defined.

(** On a well-shaped frame without rows the missingness rule is silent for
    every threshold: [threshold_count] is 0 and no count exceeds it. Columns
    go for their name only. *)
Theorem filter_cols_no_rows (df : DataFrame) (t : Q) (df' : DataFrame) (rep : Report) :
  nrows df = 0 -> wf_shape df ->
  filter_cols df t = Ok (df', rep) ->
  (forall l r, In (l, r) (report_rows rep) -> r = "Unnamed Column") /\
  (forall s c, In (LStr s, c) (cols df) ->
     (In (LStr s, c) (cols df') <-> starts_with_nocase s "unnamed" = false)).
Proof.
  intros Hn W H.
  assert (G : forall l c, In (l, c) (cols df) ->
     gt_count (isnull_sum c) (threshold_count t df) = false).
  { intros l c Hin. apply gt_count_le. unfold threshold_count. rewrite Hn.
    unfold wf_shape in W. rewrite Forall_forall in W. pose proof (W _ Hin) as Wc.
    simpl in Wc. rewrite Hn in Wc. pose proof (isnull_sum_le_length c) as L.
    assert (isnull_sum c = 0) as -> by lia. simpl.
    rewrite Qmult_0_r. apply Qle_refl. }
  split.
  - intros l r Hr. destruct (filter_cols_ok _ _ _ _ H) as (_ & _ & _ & ->).
    rewrite report_rows_removal in Hr. apply flagged_rows_In in Hr.
    destruct Hr as (c & Hin & R). unfold flag_reason in R. simpl in R.
    rewrite (G _ _ Hin) in R. destruct l as [s | z]; [|discriminate].
    destruct (startswith (lower s) "unnamed"); congruence.
  - intros s c Hin. rewrite (kept_iff _ _ _ _ _ H). unfold flagged, flag_reason.
    simpl. rewrite (G _ _ Hin), <- unnamed_nocase.
    destruct (startswith (lower s) "unnamed"); intuition congruence.
Qed.

Lemma filter_cols_no_rows_witness :
  In (LStr "a", mkSeries Float64 [])
     (cols (mkDataFrame 0 [ (LStr "a", mkSeries Float64 []) ])) <->
  starts_with_nocase "a" "unnamed" = false.
Proof.
  refine (proj2 (filter_cols_no_rows df_no_rows (-(1))%Q
                   (mkDataFrame 0 [ (LStr "a", mkSeries Float64 []) ])
                   (mkReport ["Column"; "Reason"] [LStr "Unnamed: 3"] ["Unnamed Column"])
                   eq_refl _ eq_refl) "a" (mkSeries Float64 []) _).
  - unfold wf_shape. simpl. repeat constructor.
  - simpl. tauto.
Defined.

(** With [missing_threshold = 0] a single missing cell is enough: a column is
    kept exactly when it has no missing cell and its name does not start with
    "unnamed". *)
Theorem threshold_zero_any_missing (df df' : DataFrame) (rep : Report)
    (s : string) (c : Series) :
  filter_cols df 0%Q = Ok (df', rep) ->
  In (LStr s, c) (cols df) ->
  (In (LStr s, c) (cols df') <->
   existsb isnull (s_values c) = false /\ starts_with_nocase s "unnamed" = false).
Proof.
  intros H Hin. rewrite (kept_iff _ _ _ _ _ H). unfold flagged, flag_reason. simpl.
  rewrite <- unnamed_nocase.
  assert (G : gt_count (isnull_sum c) (threshold_count 0%Q df) =
              existsb isnull (s_values c)).
  { unfold isnull_sum. induction (s_values c) as [| v vs IH]; [reflexivity|].
    simpl. destruct (isnull v); simpl; [|exact IH].
    apply gt_count_lt. unfold threshold_count. rewrite Qmult_0_l.
    change 0%Q with (inject_Z 0). rewrite <- Zlt_Qlt. lia. }
  rewrite G.
  destruct (existsb isnull (s_values c)), (startswith (lower s) "unnamed");
    intuition congruence.
Qed.

Lemma threshold_zero_any_missing_witness :
  In (LStr "kept", floats_missing 1 2) (cols (mkDataFrame 3 [])) <->
  existsb isnull (s_values (floats_missing 1 2)) = false /\
  starts_with_nocase "kept" "unnamed" = false.
Proof.
  apply (threshold_zero_any_missing df_all_missing (mkDataFrame 3 [])
           (mkReport ["Column"; "Reason"]
              [LStr "empty"; LStr "UNNAMED: 1"; LStr "kept"]
              ["Excessive Missing Values";
               "Excessive Missing Values, Unnamed Column";
               "Excessive Missing Values"])).
  - reflexivity.
  - simpl. tauto.
Defined.

(** With a negative threshold and at least one row every column is removed:
    the report names all the labels, in order, and the frame that is left has
    its rows and no column. *)
Theorem negative_threshold_removes_all (df : DataFrame) (t : Q)
    (df' : DataFrame) (rep : Report) :
  (t < 0)%Q -> 0 < nrows df ->
  filter_cols df t = Ok (df', rep) ->
  cols df' = [] /\ nrows df' = nrows df /\ report_Column rep = df_columns df.
Proof.
  intros Ht Hn H. destruct (filter_cols_ok _ _ _ _ H) as (Hs & _ & -> & ->).
  set (tc := threshold_count t df).
  assert (F : forall lc, In lc (cols df) -> flagged tc lc = true).
  { intros [l c] Hin. unfold str_labels in Hs. rewrite Forall_forall in Hs.
    assert (is_str l = true) as S
      by (apply Hs; unfold df_columns; change l with (fst (l, c)); now apply in_map).
    destruct l as [s | z]; [|discriminate].
    assert (gt_count (isnull_sum c) tc = true) as G.
    { apply gt_count_lt. apply Qlt_le_trans with 0%Q.
      - unfold tc, threshold_count.
        setoid_replace 0%Q with (0 * inject_Z (Z.of_nat (nrows df)))%Q
          by (now rewrite Qmult_0_l).
        apply Qmult_lt_compat_r; [|exact Ht].
        change 0%Q with (inject_Z 0). rewrite <- Zlt_Qlt. lia.
      - change 0%Q with (inject_Z 0). rewrite <- Zle_Qle. lia. }
    unfold flagged, flag_reason. simpl. rewrite G.
    now destruct (startswith (lower s) "unnamed"). }
  simpl. rewrite flagged_rows_keys. split; [|split; [reflexivity|]].
  - clear - F. induction (cols df) as [| lc cs IH]; [reflexivity|]. simpl.
    rewrite (F lc (or_introl eq_refl)). simpl. apply IH.
    intros x Hx. apply F. now right.
  - unfold df_columns. f_equal. clear - F.
    induction (cols df) as [| lc cs IH]; [reflexivity|]. simpl.
    rewrite (F lc (or_introl eq_refl)). f_equal. apply IH.
    intros x Hx. apply F. now right.
Qed.

Lemma negative_threshold_removes_all_witness :
  cols (mkDataFrame 10 []) = [] /\ nrows (mkDataFrame 10 []) = 10 /\
  [LStr "A"; LStr "Unnamed: 0"] = df_columns df_scenario1.
Proof.
  apply (negative_threshold_removes_all df_scenario1 (-(1 # 10))%Q (mkDataFrame 10 [])
           (mkReport ["Column"; "Reason"] [LStr "A"; LStr "Unnamed: 0"]
              ["Excessive Missing Values";
               "Excessive Missing Values, Unnamed Column"])).
  - reflexivity.
  - simpl. lia.
  - reflexivity.
Defined.

(** The fate of a column depends on its label, its cells, the number of rows
    and the threshold only, not on the other columns: in two frames of the
    same height that [filter_cols] accepts, a shared column is kept in both
    or in neither, and reported with the same reason. *)
Theorem filter_cols_columnwise (df1 df2 : DataFrame) (t : Q)
    (d1 d2 : DataFrame) (r1 r2 : Report) (l : label) (c : Series) :
  nrows df1 = nrows df2 ->
  filter_cols df1 t = Ok (d1, r1) ->
  filter_cols df2 t = Ok (d2, r2) ->
  In (l, c) (cols df1) -> In (l, c) (cols df2) ->
  (In (l, c) (cols d1) <-> In (l, c) (cols d2)) /\
  (forall r, In (l, r) (report_rows r1) <-> In (l, r) (report_rows r2)).
Proof.
  intros Hn H1 H2 I1 I2.
  assert (E : threshold_count t df1 = threshold_count t df2)
    by (unfold threshold_count; now rewrite Hn).
  split.
  - rewrite (kept_iff _ _ _ _ _ H1), (kept_iff _ _ _ _ _ H2), E. tauto.
  - intro r. rewrite (report_row_iff _ _ _ _ _ _ r H1 I1).
    rewrite (report_row_iff _ _ _ _ _ _ r H2 I2). now rewrite E.
Qed.

Lemma filter_cols_columnwise_witness :
  (In (LStr "kept", floats_missing 1 2)
      (cols (mkDataFrame 3 [ (LStr "kept", floats_missing 1 2) ])) <->
   In (LStr "kept", floats_missing 1 2)
      (cols (mkDataFrame 3 [ (LStr "kept", floats_missing 1 2) ]))) /\
  (forall r, In (LStr "kept", r)
               (report_rows (mkReport ["Column"; "Reason"]
                               [LStr "empty"; LStr "UNNAMED: 1"]
                               ["Excessive Missing Values";
                                "Excessive Missing Values, Unnamed Column"])) <->
             In (LStr "kept", r) (report_rows empty_report)).
Proof.
  apply (filter_cols_columnwise df_all_missing
           (mkDataFrame 3 [ (LStr "kept", floats_missing 1 2) ]) (1 # 2)%Q
           (mkDataFrame 3 [ (LStr "kept", floats_missing 1 2) ])
           (mkDataFrame 3 [ (LStr "kept", floats_missing 1 2) ])).
  - reflexivity.
  - reflexivity.
  - reflexivity.
  - simpl. tauto.
  - simpl. tauto.
Defined.

Lemma filter_partition {A : Type} (f : A -> bool) (l : list A) :
  Permutation l (filter (fun x => negb (f x)) l ++ filter f l).
Proof.
  induction l as [| a l IH]; simpl; [constructor|].
  destruct (f a); simpl.
  - now apply Permutation_cons_app.
  - now constructor.
Qed.

Lemma NoDup_app_disjoint {A : Type} (a b : list A) :
  NoDup (a ++ b) -> forall x, In x a -> ~ In x b.
Proof.
  induction a as [| k a IH]; simpl; intros ND x Hx Hb; [contradiction|].
  inversion ND as [| ? ? Hk ND']; subst. destruct Hx as [-> | Hx].
  - apply Hk. apply in_or_app. now right.
  - now apply (IH ND' x).
Qed.

(** The labels of the frame returned and the labels of the report split the
    labels of the input: each input column is either kept or reported, never
    both, and the report has one reason per label. *)
Theorem filter_cols_partition (df : DataFrame) (t : Q) (df' : DataFrame) (rep : Report) :
  filter_cols df t = Ok (df', rep) ->
  Permutation (df_columns df) (df_columns df' ++ report_Column rep) /\
  (forall l, In l (df_columns df') -> ~ In l (report_Column rep)) /\
  NoDup (report_Column rep) /\
  List.length (cols df') + List.length (report_rows rep) = List.length (cols df).
Proof.
  intro H. destruct (filter_cols_ok _ _ _ _ H) as (_ & ND & -> & ->).
  set (tc := threshold_count t df).
  assert (P : Permutation (df_columns df)
                (df_columns (kept_frame tc df) ++ report_Column (removal_report tc df))).
  { simpl. rewrite flagged_rows_keys. unfold df_columns, kept_frame. simpl.
    rewrite <- map_app. apply Permutation_map. apply filter_partition. }
  pose proof (Permutation_NoDup P ND) as ND'.
  split; [exact P|]. split; [|split].
  - intros l Hl. now apply (NoDup_app_disjoint _ _ ND').
  - now apply NoDup_app_remove_l in ND'.
  - rewrite report_rows_removal. unfold kept_frame. simpl.
    assert (L : List.length (flagged_rows tc (cols df)) =
                List.length (filter (flagged tc) (cols df))).
    { rewrite <- (length_map fst (filter (flagged tc) (cols df))).
      rewrite <- flagged_rows_keys. unfold dict_keys. now rewrite length_map. }
    rewrite L, <- length_app. symmetry. apply Permutation_length, filter_partition.
Qed.

Lemma filter_cols_partition_witness :
  Permutation (df_columns df_all_missing)
    (df_columns (mkDataFrame 3 [ (LStr "kept", floats_missing 1 2) ]) ++
     [LStr "empty"; LStr "UNNAMED: 1"]).
Proof.
  refine (proj1 (filter_cols_partition df_all_missing (1 # 2)%Q
                   (mkDataFrame 3 [ (LStr "kept", floats_missing 1 2) ])
                   (mkReport ["Column"; "Reason"] [LStr "empty"; LStr "UNNAMED: 1"]
                      ["Excessive Missing Values";
                       "Excessive Missing Values, Unnamed Column"]) _)).
  reflexivity.
Defined.

(** [filter_cols] keeps the shape of the frame: the result has the row count
    of the input, also when every column is removed, and each of its columns
    still has one cell per row. *)
Theorem filter_cols_keeps_shape (df : DataFrame) (t : Q) (df' : DataFrame) (rep : Report) :
  wf_shape df ->
  filter_cols df t = Ok (df', rep) ->
  nrows df' = nrows df /\ wf_shape df'.
Proof.
  intros W H. destruct (filter_cols_ok _ _ _ _ H) as (_ & _ & -> & _).
  split; [reflexivity|]. unfold wf_shape, kept_frame in *. simpl.
  rewrite Forall_forall in *. intros lc Hin. apply filter_In in Hin.
  apply W. tauto.
Qed.

Lemma filter_cols_keeps_shape_witness :
  nrows (mkDataFrame 10 []) = nrows df_scenario2 /\ wf_shape (mkDataFrame 10 []).
Proof.
  apply (filter_cols_keeps_shape df_scenario2 (8 # 10)%Q (mkDataFrame 10 [])
           (mkReport ["Column"; "Reason"] [LStr "B"] ["Excessive Missing Values"])).
  - unfold wf_shape. simpl. repeat constructor.
  - reflexivity.
Defined.

(** * Further properties of format_number *)

Lemma round_half_even_integer (x : Q) (n : Z) :
  (x == inject_Z n)%Q -> round_half_even x = n.
Proof.
  intro H. unfold round_half_even.
  assert (F : Qfloor x = n) by (rewrite (Qfloor_comp _ _ H); apply Qfloor_Z).
  rewrite F.
  assert (C : Qcompare (x - inject_Z n) (1 # 2) = Lt).
  { apply Qlt_alt. rewrite H. unfold Qminus. rewrite Qplus_opp_r. reflexivity. }
  now rewrite C.
Qed.

Lemma hundredths_times_100 (n : Z) : (Qmake n 100 * 100 == inject_Z n)%Q.
Proof.
  rewrite (Qmake_Qdiv n 100). change (inject_Z (Z.pos 100)) with 100%Q. field.
Qed.

Lemma round2_round2 (q : Q) : round2 (round2 q) = round2 q.
Proof.
  unfold round2 at 1 3. f_equal. apply round_half_even_integer.
  unfold round2. apply hundredths_times_100.
Qed.

(** [format_number] is idempotent: formatting a formatted cell changes
    nothing. *)
Theorem format_number_idempotent (x : value) :
  format_number (format_number x) = format_number x.
Proof.
  destruct x; try reflexivity.
  unfold format_number. simpl. now rewrite round2_round2.
Qed.

(** A float that already is a whole number of hundredths keeps its value
    (and stays a float). *)
Theorem format_number_two_decimals (q : Q) (k : Z) :
  (q * 100 == inject_Z k)%Q ->
  exists r, format_number (VFloat q) = VFloat r /\ (r == q)%Q.
Proof.
  intro H. exists (round2 q). split; [reflexivity|].
  unfold round2. rewrite (round_half_even_integer _ _ H).
  rewrite (Qmake_Qdiv k 100). change (inject_Z (Z.pos 100)) with 100%Q.
  rewrite <- H. field.
Qed.

Lemma format_number_two_decimals_witness :
  exists r, format_number (VFloat (25 # 10)) = VFloat r /\ (r == 25 # 10)%Q.
Proof.
  apply (format_number_two_decimals (25 # 10) 250). reflexivity.
Defined.

Lemma round_half_even_bounds (x : Q) :
  (Qfloor x <= round_half_even x <= Qfloor x + 1)%Z.
Proof.
  unfold round_half_even.
  destruct (Qcompare (x - inject_Z (Qfloor x)) (1 # 2)); [destruct (Z.even _)| |]; lia.
Qed.

Lemma round_half_even_monotone (x y : Q) :
  (x <= y)%Q -> (round_half_even x <= round_half_even y)%Z.
Proof.
  intro H. pose proof (Qfloor_resp_le _ _ H) as F.
  destruct (Z.eq_dec (Qfloor x) (Qfloor y)) as [E | N].
  - unfold round_half_even. rewrite E.
    destruct (Qcompare (x - inject_Z (Qfloor y)) (1 # 2)) eqn:Cx;
      destruct (Qcompare (y - inject_Z (Qfloor y)) (1 # 2)) eqn:Cy;
      try (destruct (Z.even (Qfloor y))); try lia; exfalso;
      repeat match goal with
             | C : Qcompare _ _ = Eq |- _ => apply Qeq_alt in C
             | C : Qcompare _ _ = Lt |- _ => apply Qlt_alt in C
             | C : Qcompare _ _ = Gt |- _ => apply Qgt_alt in C
             end;
      revert Cx Cy; generalize (inject_Z (Qfloor y)); intros f Cx Cy; lra.
  - pose proof (round_half_even_bounds x). pose proof (round_half_even_bounds y). lia.
Qed.

(** [format_number] keeps the order of floats: rounding never swaps two
    values. *)
Theorem format_number_monotone (q1 q2 : Q) :
  (q1 <= q2)%Q ->
  exists r1 r2,
    format_number (VFloat q1) = VFloat r1 /\
    format_number (VFloat q2) = VFloat r2 /\
    (r1 <= r2)%Q.
Proof.
  intro H. exists (round2 q1), (round2 q2). split; [reflexivity|]. split; [reflexivity|].
  unfold round2, Qle. simpl. apply Z.mul_le_mono_nonneg_r; [lia|].
  apply round_half_even_monotone. apply Qmult_le_compat_r; [exact H | discriminate].
Qed.

Lemma format_number_monotone_witness :
  exists r1 r2,
    format_number (VFloat (1005 # 1000)) = VFloat r1 /\
    format_number (VFloat (1015 # 1000)) = VFloat r2 /\
    (r1 <= r2)%Q.
Proof.
  apply format_number_monotone. discriminate.
Defined.

(** * The missingness rule in floating point *)

Lemma round_half_even_comp (x y : Q) :
  (x == y)%Q -> round_half_even x = round_half_even y.
Proof.
  intro H. unfold round_half_even. rewrite (Qfloor_comp _ _ H).
  assert (E : (x - inject_Z (Qfloor y) == y - inject_Z (Qfloor y))%Q) by now rewrite H.
  now rewrite (Qcompare_comp _ _ E _ _ (Qeq_refl (1 # 2))).
Qed.

Lemma round_half_even_Z (k : Z) : round_half_even (inject_Z k) = k.
Proof. apply round_half_even_integer. reflexivity. Qed.

Lemma binade_nonneg x : (0 <= binade x)%Z.
Proof. unfold binade. lia. Qed.

Lemma pow2_pos (e : Z) : (0 <= e)%Z -> (0 < 2 ^ e)%Z.
Proof. intro H. apply Z.pow_pos_nonneg; lia. Qed.

Lemma inject_Z_pos (z : Z) : (0 < z)%Z -> (0 < inject_Z z)%Q.
Proof. intro H. change 0%Q with (inject_Z 0). now rewrite <- Zlt_Qlt. Qed.

(** Below [2^53] the last kept bit is a unit fraction: the scaled argument
    of the rounding is the number times a power of two. *)
Lemma scaled_small (x : Q) :
  (binade x <= 1074)%Z ->
  (x * inject_Z (2 ^ 1074) / inject_Z (2 ^ binade x) ==
   x * inject_Z (2 ^ (1074 - binade x)))%Q.
Proof.
  intro H. pose proof (binade_nonneg x) as N.
  assert (E : (2 ^ 1074 = 2 ^ (1074 - binade x) * 2 ^ binade x)%Z).
  { rewrite <- Z.pow_add_r by lia. f_equal. lia. }
  rewrite E at 1. rewrite inject_Z_mult.
  pose proof (inject_Z_pos _ (pow2_pos _ N)) as P.
  field. intro Z0. rewrite Z0 in P. now apply (Qlt_irrefl 0).
Qed.

Lemma binade_large (x : Q) :
  (1074 < binade x)%Z ->
  (inject_Z (2 ^ (binade x + 52)) <= Qabs x * inject_Z (2 ^ 1074))%Q.
Proof.
  intro H. unfold binade in *.
  set (F := Qfloor (Qabs x * inject_Z (2 ^ 1074))) in *.
  assert (L : (1126 < Z.log2 F)%Z) by lia.
  assert (FP : (0 < F)%Z).
  { destruct (Z.lt_ge_cases 0 F) as [G | G]; [exact G|].
    rewrite (Z.log2_nonpos F G) in L. lia. }
  pose proof (Z.log2_spec F FP) as [Lo _].
  replace (Z.max 0 (Z.log2 F - 52) + 52)%Z with (Z.log2 F) by lia.
  apply Qle_trans with (inject_Z F).
  - now rewrite <- Zle_Qle.
  - apply Qfloor_le.
Qed.

Lemma pow2_53_scaled (e : Z) :
  (1074 < e)%Z -> (2 ^ 53 * 2 ^ 1074 <= 2 ^ 52 * 2 ^ e)%Z.
Proof.
  intro H.
  replace (2 ^ 53)%Z with (2 ^ 52 * 2 ^ 1)%Z
    by (rewrite <- Z.pow_add_r; [reflexivity | lia | lia]).
  rewrite <- Z.mul_assoc, <- Z.pow_add_r by lia.
  apply Z.mul_le_mono_nonneg_l; [lia|]. apply Z.pow_le_mono_r; lia.
Qed.

(** Rounding never crosses an integer that a double holds exactly. *)
Lemma round_binary64_le_int (x : Q) (k : Z) :
  (- 2 ^ 53 <= k < 2 ^ 53)%Z -> (x <= inject_Z k)%Q ->
  (round_binary64 x <= inject_Z k)%Q.
Proof.
  intros [K0 K1] H. unfold round_binary64.
  pose proof (binade_nonneg x) as N.
  pose proof (pow2_pos _ N) as P.
  assert (S0 : (0 < 2 ^ 1074)%Z) by (apply pow2_pos; lia).
  apply Qle_shift_div_r; [now apply inject_Z_pos|].
  rewrite <- inject_Z_mult, <- Zle_Qle.
  destruct (Z.le_gt_cases (binade x) 1074) as [E | E].
  - rewrite (round_half_even_comp _ _ (scaled_small x E)).
    set (R := (2 ^ (1074 - binade x))%Z).
    assert (RP : (0 < R)%Z) by (apply pow2_pos; lia).
    assert (ES : (2 ^ 1074 = R * 2 ^ binade x)%Z).
    { unfold R. rewrite <- Z.pow_add_r by lia. f_equal. lia. }
    assert (M : (round_half_even (x * inject_Z R) <= k * R)%Z).
    { rewrite <- (round_half_even_Z (k * R)). apply round_half_even_monotone.
      rewrite inject_Z_mult. apply Qmult_le_compat_r; [exact H|].
      apply Qlt_le_weak. now apply inject_Z_pos. }
    rewrite ES. rewrite Z.mul_assoc. apply Z.mul_le_mono_nonneg_r; [lia | exact M].
  - pose proof (binade_large x E) as B.
    assert (XN : (x < 0)%Q).
    { apply Qnot_le_lt. intro XP. rewrite (Qabs_pos _ XP) in B.
      assert (C : (x * inject_Z (2 ^ 1074) < inject_Z (2 ^ (binade x + 52)))%Q).
      { apply Qle_lt_trans with (inject_Z k * inject_Z (2 ^ 1074))%Q.
        - apply Qmult_le_compat_r; [exact H|]. apply Qlt_le_weak. now apply inject_Z_pos.
        - rewrite <- inject_Z_mult, <- Zlt_Qlt.
          apply Z.lt_le_trans with (2 ^ 53 * 2 ^ 1074)%Z.
          + apply Z.mul_lt_mono_pos_r; lia.
          + rewrite <- Z.pow_add_r by lia. apply Z.pow_le_mono_r; lia. }
      apply (Qlt_irrefl (x * inject_Z (2 ^ 1074))). eapply Qlt_le_trans; eassumption. }
    rewrite (Qabs_neg _ (Qlt_le_weak _ _ XN)) in B.
    assert (M : (round_half_even (x * inject_Z (2 ^ 1074) / inject_Z (2 ^ binade x))
                 <= - 2 ^ 52)%Z).
    { rewrite <- (round_half_even_Z (- 2 ^ 52)). apply round_half_even_monotone.
      apply Qle_shift_div_r; [now apply inject_Z_pos|].
      rewrite <- inject_Z_mult.
      replace (- 2 ^ 52 * 2 ^ binade x)%Z with (- 2 ^ (binade x + 52))%Z
        by (rewrite Z.pow_add_r by lia; lia).
      rewrite inject_Z_opp. revert B.
      generalize (inject_Z (2 ^ (binade x + 52))), (inject_Z (2 ^ 1074)).
      intros a s B. nra. }
    pose proof (pow2_53_scaled _ E) as W.
    apply Z.le_trans with (- 2 ^ 52 * 2 ^ binade x)%Z.
    + apply Z.mul_le_mono_nonneg_r; lia.
    + apply Z.le_trans with (- 2 ^ 53 * 2 ^ 1074)%Z; [lia|].
      apply Z.mul_le_mono_nonneg_r; lia.
Qed.

Lemma round_binary64_ge_int (x : Q) (k : Z) :
  (0 <= k < 2 ^ 53)%Z -> (inject_Z k <= x)%Q ->
  (inject_Z k <= round_binary64 x)%Q.
Proof.
  intros [K0 K1] H. unfold round_binary64.
  pose proof (binade_nonneg x) as N.
  pose proof (pow2_pos _ N) as P.
  assert (S0 : (0 < 2 ^ 1074)%Z) by (apply pow2_pos; lia).
  apply Qle_shift_div_l; [now apply inject_Z_pos|].
  rewrite <- inject_Z_mult, <- Zle_Qle.
  destruct (Z.le_gt_cases (binade x) 1074) as [E | E].
  - rewrite (round_half_even_comp _ _ (scaled_small x E)).
    set (R := (2 ^ (1074 - binade x))%Z).
    assert (RP : (0 < R)%Z) by (apply pow2_pos; lia).
    assert (ES : (2 ^ 1074 = R * 2 ^ binade x)%Z).
    { unfold R. rewrite <- Z.pow_add_r by lia. f_equal. lia. }
    assert (M : (k * R <= round_half_even (x * inject_Z R))%Z).
    { rewrite <- (round_half_even_Z (k * R)) at 1. apply round_half_even_monotone.
      rewrite inject_Z_mult. apply Qmult_le_compat_r; [exact H|].
      apply Qlt_le_weak. now apply inject_Z_pos. }
    rewrite ES. rewrite Z.mul_assoc. apply Z.mul_le_mono_nonneg_r; [lia | exact M].
  - pose proof (binade_large x E) as B.
    assert (XP : (0 <= x)%Q).
    { apply Qle_trans with (inject_Z k); [|exact H].
      change 0%Q with (inject_Z 0). now rewrite <- Zle_Qle. }
    rewrite (Qabs_pos _ XP) in B.
    assert (M : (2 ^ 52 <= round_half_even
                             (x * inject_Z (2 ^ 1074) / inject_Z (2 ^ binade x)))%Z).
    { rewrite <- (round_half_even_Z (2 ^ 52)) at 1. apply round_half_even_monotone.
      apply Qle_shift_div_l; [now apply inject_Z_pos|].
      rewrite <- inject_Z_mult, <- Z.pow_add_r by lia.
      now rewrite Z.add_comm. }
    apply Z.le_trans with (2 ^ 53 * 2 ^ 1074)%Z.
    + apply Z.mul_le_mono_nonneg_r; lia.
    + apply Z.le_trans with (2 ^ 52 * 2 ^ binade x)%Z.
      * now apply pow2_53_scaled.
      * apply Z.mul_le_mono_nonneg_r; lia.
Qed.

(** ** filter_cols for a given threshold count *)

Lemma filter_cols_exact_from df t :
  filter_cols df t = filter_cols_from (threshold_count t df) df.
Proof. reflexivity. Qed.

Lemma filter_cols_from_ok tc df df' rep :
  filter_cols_from tc df = Ok (df', rep) ->
  str_labels df /\ distinct_labels df /\
  df' = kept_frame tc df /\ rep = removal_report tc df.
Proof.
  unfold filter_cols_from. intro H.
  destruct (filter_loop df tc (df_columns df) []) as [d | e] eqn:L; [|discriminate].
  pose proof (filter_loop_ok_inv _ _ _ _ _ L) as I.
  assert (Hs : str_labels df).
  { apply Forall_forall. intros l Hl. now apply I. }
  assert (ND : distinct_labels df).
  { apply carrying_single_NoDup. intros l Hl.
    destruct (I l Hl) as [_ [c G]]. apply getitem_series_inv in G.
    destruct G as [k G]. now exists (k, c). }
  split; [exact Hs|]. split; [exact ND|].
  unfold df_columns in L.
  rewrite (filter_loop_rows df tc (cols df) []) in L.
  - injection L as <-. simpl in H. rewrite (drop_flagged _ _ ND) in H.
    simpl in H. injection H as <- <-. split; reflexivity.
  - intros [l c] Hin. simpl. split.
    + unfold str_labels in Hs. rewrite Forall_forall in Hs. apply Hs.
      unfold df_columns. change l with (fst (l, c)). now apply in_map.
    + now apply getitem_series.
  - exact ND.
  - intros k [].
Qed.

(** C4, as stated, fails: with [missing_threshold = 0.7], ten rows and seven
    missing cells the count exceeds the product of the threshold and the row
    count, and the column is kept all the same, because the floating-point
    product [0.7 * 10] is [7.0]. *)
Lemma count_above_real_product_kept :
  (double_0_7 * inject_Z (Z.of_nat (nrows df_seven_of_ten))
   < inject_Z (Z.of_nat (isnull_sum (floats_missing 7 3))))%Q /\
  (threshold_count_f64 double_0_7 df_seven_of_ten == 7)%Q /\
  filter_cols_f64 df_seven_of_ten double_0_7 = Ok (df_seven_of_ten, empty_report).
Proof.
  split; [reflexivity|]. split; vm_compute; reflexivity.
Qed.

(** C4, amended: the missingness test is the strict comparison of the count
    of missing cells with [threshold_count], the product of the threshold and
    the row count as the floating-point multiplication rounds it. On a
    well-shaped frame of fewer than [2^53] rows that [filter_cols] accepts: a
    column whose count equals [threshold_count], or is below it, is not
    flagged for its missing cells, a column whose count is above it is
    removed with a reason that starts with ["Excessive Missing Values"]. In
    terms of the real product [t * row_count]: a count equal to it, or below
    it, is not flagged; a count at least one greater is flagged; a count that
    exceeds it by less than one is left to the rounding. *)
Theorem missing_rule_binary64 (df : DataFrame) (t : Q) (df' : DataFrame) (rep : Report)
    (l : label) (c : Series) :
  wf_shape df ->
  (Z.of_nat (nrows df) < 2 ^ 53)%Z ->
  filter_cols_f64 df t = Ok (df', rep) ->
  In (l, c) (cols df) ->
  let n := inject_Z (Z.of_nat (isnull_sum c)) in
  let product := (t * inject_Z (Z.of_nat (nrows df)))%Q in
  let tc := threshold_count_f64 t df in
  ((n == tc)%Q -> forall r, In (l, r) (report_rows rep) -> r = "Unnamed Column") /\
  ((n <= tc)%Q -> forall r, In (l, r) (report_rows rep) -> r = "Unnamed Column") /\
  ((tc < n)%Q ->
     ~ In (l, c) (cols df') /\
     exists r, In (l, r) (report_rows rep) /\
               startswith r "Excessive Missing Values" = true) /\
  ((n == product)%Q -> forall r, In (l, r) (report_rows rep) -> r = "Unnamed Column") /\
  ((n <= product)%Q -> forall r, In (l, r) (report_rows rep) -> r = "Unnamed Column") /\
  ((product + 1 <= n)%Q ->
     ~ In (l, c) (cols df') /\
     exists r, In (l, r) (report_rows rep) /\
               startswith r "Excessive Missing Values" = true).
Proof.
  intros W Hrows H Hin n product tc.
  destruct (filter_cols_from_ok _ _ _ _ H) as (Hs & ND & -> & ->).
  fold tc. clear H.
  assert (Hn : (0 <= Z.of_nat (isnull_sum c) < 2 ^ 53)%Z).
  { unfold wf_shape in W. rewrite Forall_forall in W. pose proof (W _ Hin) as Wc.
    simpl in Wc. pose proof (isnull_sum_le_length c). lia. }
  assert (Hrow : forall r, In (l, r) (report_rows (removal_report tc df)) <->
                           flag_reason tc (l, c) = Some r).
  { intro r. rewrite report_rows_removal, flagged_rows_In. split.
    - intros (c' & Hin' & R). now rewrite (unique_column _ _ _ _ ND Hin Hin').
    - intro R. now exists c. }
  assert (Hle : (n <= tc)%Q ->
                forall r, In (l, r) (report_rows (removal_report tc df)) ->
                          r = "Unnamed Column").
  { intros L r Hr. apply Hrow in Hr. apply gt_count_le in L.
    unfold flag_reason in Hr. simpl in Hr. rewrite L in Hr.
    destruct l as [s | z]; [|discriminate].
    destruct (startswith (lower s) "unnamed"); congruence. }
  assert (Hgt : (tc < n)%Q ->
     ~ In (l, c) (cols (kept_frame tc df)) /\
     exists r, In (l, r) (report_rows (removal_report tc df)) /\
               startswith r "Excessive Missing Values" = true).
  { intro L. apply gt_count_lt in L.
    assert (exists s, l = LStr s) as [s ->].
    { unfold str_labels in Hs. rewrite Forall_forall in Hs.
      assert (is_str l = true) as S
        by (apply Hs; unfold df_columns; change l with (fst (l, c)); now apply in_map).
      destruct l; [eauto | discriminate]. }
    assert (R : exists r, flag_reason tc (LStr s, c) = Some r /\
                          startswith r "Excessive Missing Values" = true).
    { unfold flag_reason. simpl. rewrite L.
      destruct (startswith (lower s) "unnamed"); eexists; split; reflexivity. }
    destruct R as (r & R & P). split.
    - unfold kept_frame. simpl. rewrite filter_In. intros [_ K].
      unfold flagged in K. now rewrite R in K.
    - exists r. split; [|exact P]. now apply Hrow. }
  assert (Hprod : (n <= product)%Q -> (n <= tc)%Q).
  { intro L. unfold tc, threshold_count_f64. now apply round_binary64_ge_int. }
  split; [|split; [exact Hle | split; [exact Hgt | split; [|split]]]].
  - intro E. apply Hle. rewrite E. apply Qle_refl.
  - intro E. apply Hle, Hprod. rewrite E. apply Qle_refl.
  - intro L. now apply Hle, Hprod.
  - intro L. apply Hgt.
    apply Qle_lt_trans with (inject_Z (Z.of_nat (isnull_sum c) - 1)).
    + unfold tc, threshold_count_f64. apply round_binary64_le_int.
      * pose proof (pow2_pos 53). lia.
      * unfold Z.sub. rewrite inject_Z_plus. fold n. fold product.
        change (inject_Z (- (1))) with (- (1))%Q. lra.
    + unfold n. rewrite <- Zlt_Qlt. lia.
Qed.

Lemma missing_rule_binary64_witness :
  (forall r, In (LStr "B", r) (report_rows empty_report) -> r = "Unnamed Column") /\
  ~ In (LStr "B", floats_missing 9 1) (cols (mkDataFrame 10 [])) /\
  exists r, In (LStr "B", r)
               (report_rows (mkReport ["Column"; "Reason"] [LStr "B"]
                               ["Excessive Missing Values"])) /\
            startswith r "Excessive Missing Values" = true.
Proof.
  split.
  - refine (proj1 (missing_rule_binary64 df_seven_of_ten double_0_7 df_seven_of_ten
                     empty_report (LStr "B") (floats_missing 7 3) _ _ _ _) _).
    + unfold wf_shape. simpl. repeat constructor.
    + reflexivity.
    + vm_compute. reflexivity.
    + simpl. tauto.
    + vm_compute. reflexivity.
  - refine (proj2 (proj2 (proj2 (proj2 (proj2
              (missing_rule_binary64 df_scenario2 (8 # 10)%Q (mkDataFrame 10 [])
                 (mkReport ["Column"; "Reason"] [LStr "B"] ["Excessive Missing Values"])
                 (LStr "B") (floats_missing 9 1) _ _ _ _))))) _).
    + unfold wf_shape. simpl. repeat constructor.
    + reflexivity.
    + vm_compute. reflexivity.
    + simpl. tauto.
    + vm_compute. discriminate.
Defined.
